(** * A model of the Catppuccin palette editor ([main.py])

    The program edits the colours of the Catppuccin palette in the Okhsl
    colour space according to rules read from a TOML file, and can rewrite a
    text file by substituting each changed colour.

    Python values are modelled as follows.
    - [float] is an IEEE 754 binary64 number: Rocq's primitive [float].
    - [str] is [string]; [str | None] is [option string].
    - an exception is a value of [exn], and a computation that may raise
      returns a [result].
    - a [dict] is an association list in insertion order ([pydict]).
    - the file system and the order of its accesses are threaded through
      the state monad [io]; a text is held as its bytes.
    The colour library (coloraide), the TOML grammar, the path arithmetic
    of pathlib and the decoding of the locale are interfaces of the model. The writer of the
    default command ([_write], [Editor.__call__]) serialises the views of
    the palette and is left out. *)

From Stdlib Require Import Floats.
From stdpp Require Import gmap strings list.

#[local] Set Warnings "-clear-no-such-hyp".

Local Open Scope string_scope.
Local Open Scope list_scope.
Local Open Scope stdpp_scope.

(** ** Exceptions and results *)

Inductive exn : Type :=
| ValueError (arg : string)
| ChannelError (channel : string)   (* coloraide's ValueError: no such channel *)
| ColorError (text : string)        (* coloraide's ValueError: not a colour *)
| ValidationError                   (* msgspec: the document does not fit the type *)
| DecodeError                       (* msgspec: the bytes are not TOML *)
| KeyError (key : string)
| FileExistsError (path : string)
| FileNotFoundError (path : string)
| IsADirectoryError (path : string)
| UnicodeDecodeError (data : string).

Inductive result (A : Type) : Type :=
| Ok (a : A)
| Raise (e : exn).
Arguments Ok {A} a.
Arguments Raise {A} e.

Definition rbind {A B} (r : result A) (k : A -> result B) : result B :=
  match r with
  | Ok a => k a
  | Raise e => Raise e
  end.

Declare Scope result_scope.
Delimit Scope result_scope with res.
Notation "'try' x := r 'in' k" := (rbind r (fun x => k))
  (at level 10, x name, r at level 100, k at level 200) : result_scope.
Local Open Scope result_scope.

Fixpoint rmap {A B} (f : A -> result B) (l : list A) : result (list B) :=
  match l with
  | [] => Ok []
  | x :: l' => try y := f x in try ys := rmap f l' in Ok (y :: ys)
  end.

(** ** Python dictionaries

    A [dict] keeps its keys in the order of their first insertion; setting
    a key that is present replaces its value in place. *)

Abbreviation pydict V := (list (string * V)).

Fixpoint dict_set {V} (k : string) (v : V) (d : pydict V) : pydict V :=
  match d with
  | [] => [(k, v)]
  | (k', v') :: d' =>
      if String.eqb k' k then (k', v) :: d' else (k', v') :: dict_set k v d'
  end.

Fixpoint dict_get {V} (k : string) (d : pydict V) : option V :=
  match d with
  | [] => None
  | (k', v') :: d' => if String.eqb k' k then Some v' else dict_get k d'
  end.

(** [dict(items)] and a dictionary comprehension: the pairs are set one
    after the other, starting from the empty dictionary. *)
Definition dict_of {V} (items : list (string * V)) : pydict V :=
  fold_left (fun d kv => dict_set (fst kv) (snd kv) d) items [].

Definition dict_keys {V} (d : pydict V) : list string := map fst d.
Definition dict_values {V} (d : pydict V) : list V := map snd d.

(** ** The dataset ([catppuccin.models]) *)

Module models.
Module Color.
Record t : Type := mk {
  name : string;
  identifier : string;
  accent : bool;
  hex : string
}.
End Color.

Module Flavor.
Record t : Type := mk {
  name : string;
  identifier : string;
  dark : bool;
  colors : list Color.t
}.
End Flavor.
End models.

(** ** Edit rules ([_Edit]) *)

(** The annotation of [type] is [Literal['value', 'multiply']]; a dataclass
    does not check it, so the field of a rule object is any string. *)

Module _Edit.
Record t : Type := mk {
  variable : string;
  value : float;
  type : string;
  name : option string;
  accent : option bool
}.

(** [_Edit.__call__]: the new value of a channel whose value is [v]. *)
Definition __call__ (self : t) (v : float) : result float :=
  if String.eqb (type self) "value" then Ok (value self)
  else if String.eqb (type self) "multiply" then Ok (v * value self)%float
  else Raise (ValueError (type self)).
End _Edit.

(** ** Rule matching (the condition of the loop of [_Colors.create]) *)

(** [x in {a, b}] for [x : str | None] and strings [a], [b]: [None] is equal
    to no string. *)
Definition in_names (x : option string) (a b : string) : bool :=
  match x with
  | None => false
  | Some s => String.eqb s a || String.eqb s b
  end.

(** [x == b] for [x : bool | None] and a boolean [b]. *)
Definition eq_flag (x : option bool) (b : bool) : bool :=
  match x with
  | None => false
  | Some a => Bool.eqb a b
  end.

Definition matches (edit : _Edit.t) (color : models.Color.t) : bool :=
  in_names (_Edit.name edit) (models.Color.name color) (models.Color.identifier color)
  || eq_flag (_Edit.accent edit) (models.Color.accent color).

(** ** The colour library (coloraide), as an interface

    [_Color(hex).convert('okhsl')] builds a colour object in Okhsl from a
    colour string, or raises; [c.set(name, f)] reads the channel [name],
    raises when there is no such channel, and stores what the callable [f]
    returns for the value read; [c.convert('srgb').to_string(hex=True)]
    renders the object. The conversions are floating-point code of the
    library and stay abstract. *)

Class ColorSpace : Type := {
  okhsl : Type;
  parse : string -> option okhsl;
  channel : okhsl -> string -> option float;
  store : okhsl -> string -> float -> okhsl;
  to_hex : okhsl -> string
}.

Section Palette.
Context {CS : ColorSpace}.

(** [c.set(name, f)] for a callable [f]. *)
Definition set (c : okhsl) (name : string) (f : float -> result float)
  : result okhsl :=
  match channel c name with
  | None => Raise (ChannelError name)
  | Some v => try v' := f v in Ok (store c name v')
  end.

(** The loop of [_Colors.create] over the rules, from the colour object
    [c]. *)
Fixpoint apply_edits (color : models.Color.t) (edits : list _Edit.t)
    (c : okhsl) : result okhsl :=
  match edits with
  | [] => Ok c
  | edit :: rest =>
      if matches edit color
      then try c' := set c (_Edit.variable edit) (_Edit.__call__ edit) in
           apply_edits color rest c'
      else apply_edits color rest c
  end.
End Palette.

Module _Colors.
Record t : Type := mk {
  name : string;
  original : string;
  custom : string;
  changed : bool
}.

Definition create `{ColorSpace} (color : models.Color.t)
    (edits : list _Edit.t) : result t :=
  try c := match parse (models.Color.hex color) with
           | Some c => Ok c
           | None => Raise (ColorError (models.Color.hex color))
           end in
  try c := apply_edits color edits c in
  let custom := to_hex c in
  Ok {| name := models.Color.identifier color;
        original := models.Color.hex color;
        custom := custom;
        changed := negb (String.eqb (models.Color.hex color) custom) |}.
End _Colors.

Module _Flavor.
Record t : Type := mk {
  name : string;
  colors : list _Colors.t
}.

Definition create `{ColorSpace} (flavor : models.Flavor.t)
    (edits : list _Edit.t) : result t :=
  try cs := rmap (fun c => _Colors.create c edits) (models.Flavor.colors flavor) in
  Ok {| name := models.Flavor.identifier flavor; colors := cs |}.

Definition original (self : t) : pydict string :=
  dict_of (map (fun c => (_Colors.name c, _Colors.original c)) (colors self)).

Definition custom (self : t) : pydict string :=
  dict_of (map (fun c => (_Colors.name c, _Colors.custom c)) (colors self)).

(** The pairs a comprehension over the changed colours sets, in order. *)
Definition changed_pairs (self : t) : list (string * string) :=
  map (fun c => (_Colors.original c, _Colors.custom c))
      (filter (fun c => _Colors.changed c = true) (colors self)).

Definition dict (self : t) : pydict string := dict_of (changed_pairs self).
End _Flavor.

(** ** [str.replace]

    [text.replace(old, new)] replaces the occurrences of [old] found from
    left to right, resuming the search after each one; for an empty [old],
    [new] is put before every character and at the end. *)

Fixpoint replace_scan (old new : string) (skip : nat) (text : string) : string :=
  match text with
  | EmptyString => EmptyString
  | String ch rest =>
      match skip with
      | S k => replace_scan old new k rest
      | O =>
          if String.prefix old text
          then new +:+ replace_scan old new (String.length old - 1) rest
          else String ch (replace_scan old new 0 rest)
      end
  end.

Fixpoint replace_each (new : string) (text : string) : string :=
  match text with
  | EmptyString => new
  | String ch rest => new +:+ String ch (replace_each new rest)
  end.

Definition replace (old new text : string) : string :=
  match old with
  | EmptyString => replace_each new text
  | _ => replace_scan old new 0 text
  end.

(** The loop of [Replace.__call__] over [colors.items()]. *)
Definition substitute (colors : pydict string) (text : string) : string :=
  fold_left (fun text kv => replace (fst kv) (snd kv) text) colors text.

(** ** Decoding the configuration (msgspec)

    [msgspec.toml.decode(bytes, type=dict[str, tuple[_Edit, ...]])] parses
    the bytes as TOML and converts the document to the requested type,
    checking every field of every rule against the annotation of the field
    in [_Edit]; a document that does not fit raises. The TOML grammar is an
    interface; the conversion is written out for the types involved. *)

#[local] Unset Elimination Schemes.
Inductive toml : Type :=
| TString (s : string)
| TInteger (z : Z)
| TFloat (x : float)
| TBoolean (b : bool)
| TDatetime (s : string)
| TArray (items : list toml)
| TTable (fields : list (string * toml)).
#[local] Set Elimination Schemes.

Class Decoder : Type := {
  toml_loads : string -> option (list (string * toml))
}.

(** An integer given for a [float] field is converted, rounding to the
    nearest binary64 number. *)
Definition float_of_int (z : Z) : float :=
  SF2Prim (binary_normalize prec emax z 0 false).

Definition as_str (v : toml) : result string :=
  match v with
  | TString s => Ok s
  | _ => Raise ValidationError
  end.

Definition as_float (v : toml) : result float :=
  match v with
  | TFloat x => Ok x
  | TInteger z => Ok (float_of_int z)
  | _ => Raise ValidationError
  end.

Definition as_bool (v : toml) : result bool :=
  match v with
  | TBoolean b => Ok b
  | _ => Raise ValidationError
  end.

(** [Literal[...]]: a string that is one of the listed ones. *)
Definition as_literal (allowed : list string) (v : toml) : result string :=
  match v with
  | TString s =>
      if existsb (String.eqb s) allowed then Ok s else Raise ValidationError
  | _ => Raise ValidationError
  end.

(** [T | None] for a field that is present: TOML has no null. *)
Definition as_some {A} (conv : toml -> result A) (v : toml) : result (option A) :=
  try a := conv v in Ok (Some a).

Definition required {A} (conv : toml -> result A) (k : string)
    (fields : list (string * toml)) : result A :=
  match dict_get k fields with
  | Some v => conv v
  | None => Raise ValidationError
  end.

Definition optional {A} (conv : toml -> result A) (default : A) (k : string)
    (fields : list (string * toml)) : result A :=
  match dict_get k fields with
  | Some v => conv v
  | None => Ok default
  end.

(** The fields of [_Edit] with their annotations and defaults. *)
Definition convert_edit (v : toml) : result _Edit.t :=
  match v with
  | TTable fields =>
      try variable := required as_str "variable" fields in
      try value := required as_float "value" fields in
      try type := optional (as_literal ["value"; "multiply"]) "value" "type" fields in
      try name := optional (as_some as_str) None "name" fields in
      try accent := optional (as_some as_bool) None "accent" fields in
      Ok (_Edit.mk variable value type name accent)
  | _ => Raise ValidationError
  end.

Definition convert_edits (v : toml) : result (list _Edit.t) :=
  match v with
  | TArray items => rmap convert_edit items
  | _ => Raise ValidationError
  end.

Definition convert_config (doc : list (string * toml))
    : result (pydict (list _Edit.t)) :=
  try items := rmap (fun kv => try edits := convert_edits (snd kv) in
                               Ok (fst kv, edits)) doc in
  Ok (dict_of items).

(** ** Files

    The state is the file system and the chronological list of the
    accesses made to it. *)

Inductive node : Type :=
| File (content : string)
| Dir.

Inductive event : Type :=
| Exists (path : string)
| ReadBytes (path : string)
| ReadText (path : string)
| WriteText (path : string) (text : string).

Record world : Type := mkWorld {
  files : gmap string node;
  trace : list event
}.

Definition io (A : Type) : Type := world -> result A * world.

Definition ret {A} (a : A) : io A := fun w => (Ok a, w).
Definition raise {A} (e : exn) : io A := fun w => (Raise e, w).
Definition lift {A} (r : result A) : io A := fun w => (r, w).

Definition bind {A B} (m : io A) (k : A -> io B) : io B :=
  fun w =>
    match m w with
    | (Ok a, w') => k a w'
    | (Raise e, w') => (Raise e, w')
    end.

Declare Scope io_scope.
Delimit Scope io_scope with io.
Notation "'do' x <- m ; k" := (bind m (fun x => k))
  (at level 10, x name, m at level 100, k at level 200) : io_scope.
Local Open Scope io_scope.

Definition record (ev : event) (w : world) : world :=
  {| files := files w; trace := trace w ++ [ev] |}.

(** [path.exists()] *)
Definition path_exists (p : string) : io bool :=
  fun w => (Ok (bool_decide (is_Some (files w !! p))), record (Exists p) w).

Definition read (ev : event) (p : string) : io string :=
  fun w =>
    (match files w !! p with
     | Some (File content) => Ok content
     | Some Dir => Raise (IsADirectoryError p)
     | None => Raise (FileNotFoundError p)
     end, record ev w).

(** [path.read_bytes()] *)
Definition read_bytes (p : string) : io string := read (ReadBytes p) p.

(** Text is held as its bytes in the encoding of the locale, taken to be
    compatible with ASCII (UTF-8, Latin-1), so that looking for a string
    in a text is looking for its bytes. The locale says which bytes
    decode. *)
Class Locale : Type := {
  decodable : string -> bool
}.

Definition CR : Ascii.ascii := Ascii.ascii_of_nat 13.
Definition LF : Ascii.ascii := Ascii.ascii_of_nat 10.

(** Reading in text mode translates the line ends: a carriage return, with
    the line feed that follows it if there is one, is read as one line
    feed. [after_cr] tells that the character before was a carriage
    return. *)
Fixpoint universal_newlines (after_cr : bool) (data : string) : string :=
  match data with
  | EmptyString => EmptyString
  | String ch rest =>
      if Ascii.eqb ch CR then String LF (universal_newlines true rest)
      else if Ascii.eqb ch LF && after_cr then universal_newlines false rest
      else String ch (universal_newlines false rest)
  end.

(** [path.read_text()]: the bytes are read, decoded, and their line ends
    translated. *)
Definition read_text `{Locale} (p : string) : io string :=
  do data <- read (ReadText p) p;
  if decodable data then ret (universal_newlines false data)
  else raise (UnicodeDecodeError data).

(** [path.write_text(text)], on a system whose line end is the line feed
    (nothing is translated on writing) and for a path whose parent
    directory exists. *)
Definition write_text (p text : string) : io unit :=
  fun w =>
    match files w !! p with
    | Some Dir => (Raise (IsADirectoryError p), record (WriteText p text) w)
    | _ => (Ok tt, {| files := <[p := File text]> (files w);
                      trace := trace w ++ [WriteText p text] |})
    end.

(** ** The report writer ([_write])

    [msgspec.toml.encode], [msgspec.json.encode] and [msgspec.json.format]
    serialise a mapping of mappings of strings, and [Path.with_suffix]
    replaces the suffix of a path: the four are interfaces. Bytes and text
    are both strings here, and [path.write_bytes(data)] is recorded like a
    write of text. *)

Class Writer : Type := {
  with_suffix : string -> string -> string;
  toml_encode : pydict (pydict string) -> string;
  json_encode : pydict (pydict string) -> string;
  json_format : string -> string
}.

Definition write_bytes (p data : string) : io unit := write_text p data.

Definition _write `{Writer} (obj : pydict (pydict string)) (path : string)
  : io unit :=
  do u <- write_bytes (with_suffix path ".toml") (toml_encode obj);
  let buf := json_encode obj in
  let buf := json_format buf in
  write_bytes (with_suffix path ".json") buf.

(** ** The default command's palette ([Editor]) *)

Class Dataset : Type := {
  PALETTE : list models.Flavor.t      (* catppuccin.PALETTE, in its order *)
}.

(** [d[k]] *)
Definition getitem {V} (k : string) (d : pydict V) : result V :=
  match dict_get k d with
  | Some v => Ok v
  | None => Raise (KeyError k)
  end.

Module Editor.
Record t : Type := mk { conf : string }.

Definition config : Type := pydict (list _Edit.t).

(** The body of the property [edits]. *)
Definition edits `{Decoder} (self : t) : io config :=
  do bytes <- read_bytes (conf self);
  match toml_loads bytes with
  | Some doc => lift (convert_config doc)
  | None => raise DecodeError
  end.

(** [self.edits] is a [cached_property]: the body runs at the first
    access, and later accesses return what it returned. [cache] is the
    value stored in the instance, if any. *)
Definition cached_edits `{Decoder} (self : t) (cache : option config)
  : io config :=
  match cache with
  | Some es => ret es
  | None => edits self
  end.

(** The comprehension of [palette], over the flavors still to visit. *)
Fixpoint palette_loop `{ColorSpace} `{Decoder} (self : t)
    (cache : option config) (flavors : list models.Flavor.t)
    (acc : pydict _Flavor.t) : io (pydict _Flavor.t) :=
  match flavors with
  | [] => ret acc
  | flavor :: rest =>
      do es <- cached_edits self cache;
      do rules <- lift (getitem (if models.Flavor.dark flavor
                                 then "dark" else "light") es);
      do f <- lift (_Flavor.create flavor rules);
      palette_loop self (Some es) rest
        (dict_set (models.Flavor.identifier flavor) f acc)
  end.

Definition palette `{ColorSpace} `{Decoder} `{Dataset} (self : t)
  : io (pydict _Flavor.t) :=
  palette_loop self None PALETTE [].
(** [{k: g(v) for k, v in self.palette.items()}] *)
Definition view (g : _Flavor.t -> pydict string) (p : pydict _Flavor.t)
  : pydict (pydict string) :=
  dict_of (map (fun kv => (fst kv, g (snd kv))) p).

(** [Editor.__call__]: [self.palette] is a [cached_property], built at the
    first of its three uses. *)
Definition __call__ `{ColorSpace} `{Decoder} `{Dataset} `{Writer} (self : t)
  : io unit :=
  do p <- palette self;
  do u <- _write (view _Flavor.original p) "palette-original.toml";
  do u <- _write (view _Flavor.custom p) "palette-custom.toml";
  _write (view _Flavor.dict p) "palette-dict.toml".
End Editor.

(** ** The substitution command ([Replace]) *)

Class Pathlib : Type := {
  stem : string -> string;
  with_stem : string -> string -> option string   (* [None]: ValueError *)
}.

Module Replace.
Record t : Type := mk {
  src : string;
  dst : option string;
  conf : string
}.

(** [self.dst or self.src.with_stem(...)]: a path is always true. *)
Definition resolve `{Pathlib} (self : t) : result string :=
  match dst self with
  | Some d => Ok d
  | None =>
      match with_stem (src self) (stem (src self) +:+ "-replaced") with
      | Some d => Ok d
      | None => Raise (ValueError (src self))
      end
  end.

Definition _dst `{Pathlib} (self : t) : io string :=
  do d <- lift (resolve self);
  do present <- path_exists d;
  if present then raise (FileExistsError d) else ret d.

(** The pairs the generator [_colors] yields. *)
Definition _colors `{ColorSpace} `{Decoder} `{Dataset} (self : t)
  : io (list (string * string)) :=
  do palette <- Editor.palette (Editor.mk (conf self));
  ret (concat (map _Flavor.dict (dict_values palette))).

Definition __call__ `{ColorSpace} `{Decoder} `{Dataset} `{Pathlib}
    `{Locale} (self : t) : io unit :=
  do d <- _dst self;
  do items <- _colors self;
  let colors := dict_of items in
  do text <- read_text (src self);
  write_text d (substitute colors text).
End Replace.

(** ** Stand-ins for the interfaces, for the examples

    A colour object remembers the text it was parsed from and three
    coordinates. As in Okhsl, lightness 0 renders as black and lightness 1
    as white; any other object renders as the text it was parsed from, in
    lower case, as the library writes hexadecimal digits. *)

Module fixture.
Record color : Type := mk {
  source : string;
  h : float;
  s : float;
  l : float
}.

Definition channel (c : color) (name : string) : option float :=
  if String.eqb name "h" || String.eqb name "hue" then Some (h c)
  else if String.eqb name "s" || String.eqb name "saturation" then Some (s c)
  else if String.eqb name "l" || String.eqb name "lightness" then Some (l c)
  else None.

Definition store (c : color) (name : string) (v : float) : color :=
  if String.eqb name "h" || String.eqb name "hue"
  then mk (source c) v (s c) (l c)
  else if String.eqb name "s" || String.eqb name "saturation"
  then mk (source c) (h c) v (l c)
  else if String.eqb name "l" || String.eqb name "lightness"
  then mk (source c) (h c) (s c) v
  else c.

Definition lower_char (ch : Ascii.ascii) : Ascii.ascii :=
  let n := Ascii.nat_of_ascii ch in
  if (65 <=? n)%nat && (n <=? 90)%nat then Ascii.ascii_of_nat (n + 32) else ch.

Fixpoint lower (text : string) : string :=
  match text with
  | EmptyString => EmptyString
  | String ch rest => String (lower_char ch) (lower rest)
  end.

Definition to_hex (c : color) : string :=
  if PrimFloat.eqb (l c) 0 then "#000000"
  else if PrimFloat.eqb (l c) 1 then "#ffffff"
  else lower (source c).

Definition parse (text : string) : option color :=
  if String.prefix "#" text then Some (mk text 0 0 0.5) else None.

Definition space : ColorSpace :=
  Build_ColorSpace color parse channel store to_hex.

(** One configuration file and its document. *)
Definition conf_text : string := "light = []
[[dark]]
variable = 'l'
value = 0.0
accent = true
".

Definition conf_doc : list (string * toml) :=
  [("light", TArray []);
   ("dark", TArray [TTable [("variable", TString "l"); ("value", TFloat 0);
                            ("accent", TBoolean true)]])].

(** A configuration file with a rule of mode ['add']. *)
Definition add_text : string := "light = []
[[dark]]
variable = 'l'
value = 0.5
type = 'add'
".

Definition add_doc : list (string * toml) :=
  [("light", TArray []);
   ("dark", TArray [TTable [("variable", TString "l"); ("value", TFloat 0.5);
                            ("type", TString "add")]])].

(** A configuration that sends the accents of the light flavors to white
    and those of the dark flavors to black. *)
Definition contrast_text : string := "[[light]]
variable = 'l'
value = 1.0
accent = true
[[dark]]
variable = 'l'
value = 0.0
accent = true
".

Definition contrast_doc : list (string * toml) :=
  [("light", TArray [TTable [("variable", TString "l"); ("value", TFloat 1);
                             ("accent", TBoolean true)]]);
   ("dark", TArray [TTable [("variable", TString "l"); ("value", TFloat 0);
                            ("accent", TBoolean true)]])].

(** A configuration that sets the hue of the accents of the dark flavors. *)
Definition hue_text : string := "light = []
[[dark]]
variable = 'h'
value = 120.0
accent = true
".

Definition hue_doc : list (string * toml) :=
  [("light", TArray []);
   ("dark", TArray [TTable [("variable", TString "h"); ("value", TFloat 120);
                            ("accent", TBoolean true)]])].

Definition decoder : Decoder :=
  {| toml_loads := fun text =>
       if String.eqb text conf_text then Some conf_doc
       else if String.eqb text add_text then Some add_doc
       else if String.eqb text contrast_text then Some contrast_doc
       else if String.eqb text hue_text then Some hue_doc
       else None |}.

(** Two flavors with the same grey accent. *)
Definition greys : Dataset :=
  {| PALETTE :=
       [models.Flavor.mk "Latte" "latte" false
          [models.Color.mk "Grey" "grey" true "#808080"];
        models.Flavor.mk "Mocha" "mocha" true
          [models.Color.mk "Grey" "grey" true "#808080"]] |}.

(** A colour space of the three primaries, in which storing a hue moves
    red to green, green to blue and blue to red. *)
Definition turn (c : string) : string :=
  if String.eqb c "#ff0000" then "#00ff00"
  else if String.eqb c "#00ff00" then "#0000ff"
  else if String.eqb c "#0000ff" then "#ff0000"
  else c.

Definition primaries_space : ColorSpace :=
  Build_ColorSpace string
    (fun text => if String.prefix "#" text then Some text else None)
    (fun c name => if String.eqb name "h" then Some 0%float else None)
    (fun c name v => if String.eqb name "h" then turn c else c)
    (fun c => c).

Definition primaries : Dataset :=
  {| PALETTE :=
       [models.Flavor.mk "Mocha" "mocha" true
          [models.Color.mk "Red" "red" true "#ff0000";
           models.Color.mk "Green" "green" true "#00ff00"]] |}.

(** A locale in which the bytes below 128 decode. *)
Definition ascii_only (ch : Ascii.ascii) : bool :=
  match ch with
  | Ascii.Ascii _ _ _ _ _ _ _ high => negb high
  end.

Fixpoint all_ascii (data : string) : bool :=
  match data with
  | EmptyString => true
  | String ch rest => ascii_only ch && all_ascii rest
  end.

Definition locale : Locale := {| decodable := all_ascii |}.

Definition dataset : Dataset :=
  {| PALETTE :=
       [models.Flavor.mk "Mocha" "mocha" true
          [models.Color.mk "Blue" "blue" true "#89b4fa";
           models.Color.mk "Base" "base" false "#1e1e2e"]] |}.

(** Paths without directories. The suffix of a name starts at its last
    dot, unless this dot is the first or the last character; the stem is
    what is before the suffix. *)
Fixpoint last_dot (name : string) : option (string * string) :=
  match name with
  | EmptyString => None
  | String ch rest =>
      match last_dot rest with
      | Some (before, suffix) => Some (String ch before, suffix)
      | None =>
          if String.eqb (String ch EmptyString) "." then Some ("", name)
          else None
      end
  end.

Definition split_suffix (name : string) : string * string :=
  match last_dot name with
  | Some (before, suffix) =>
      if String.eqb before "" || String.eqb suffix "." then (name, "")
      else (before, suffix)
  | None => (name, "")
  end.

Definition pathlib : Pathlib :=
  {| stem := fun p => fst (split_suffix p);
     with_stem := fun p name =>
       if String.eqb p "" then None else Some (name +:+ snd (split_suffix p)) |}.

(** A writer: the suffix starts at the first dot, and a mapping is rendered
    as its keys and values in order. *)
Fixpoint before_dot (p : string) : string :=
  match p with
  | EmptyString => EmptyString
  | String ch rest =>
      if String.eqb (String ch EmptyString) "." then EmptyString else String ch (before_dot rest)
  end.

Definition render (d : pydict string) : string :=
  fold_right (fun kv out => fst kv +:+ "=" +:+ snd kv +:+ ";" +:+ out) "" d.

Definition render_all (obj : pydict (pydict string)) : string :=
  fold_right (fun kv out => "[" +:+ fst kv +:+ "]" +:+ render (snd kv) +:+ out)
    "" obj.

Definition writer : Writer :=
  {| with_suffix := fun p suffix => before_dot p +:+ suffix;
     toml_encode := render_all;
     json_encode := fun obj => "{" +:+ render_all obj +:+ "}";
     json_format := fun buf => buf |}.
End fixture.

(** ** Predicates of the statements *)

(** A mode other than the two of [_Edit.type]. *)
Definition other_mode (m : string) : Prop := m <> "value" /\ m <> "multiply".

(** Every failure of the conversion is a [ValidationError]. *)
Definition validates {A} (conv : toml -> result A) : Prop :=
  forall v e, conv v = Raise e -> e = ValidationError.

(** [old] occurs in [text]. *)
Definition occurs (old text : string) : Prop :=
  exists a b, text = a +:+ old +:+ b.

(** A mode [_Edit.__call__] has a case for. *)
Definition valid_mode (edit : _Edit.t) : Prop :=
  _Edit.type edit = "value" \/ _Edit.type edit = "multiply".

(** The entry of one flavor in the comprehension of [Editor.palette], once
    the configuration [es] is loaded. *)
Definition flavor_entry `{ColorSpace} (es : Editor.config)
    (flavor : models.Flavor.t) : result (string * _Flavor.t) :=
  try rules := getitem (if models.Flavor.dark flavor
                        then "dark" else "light") es in
  try f := _Flavor.create flavor rules in
  Ok (models.Flavor.identifier flavor, f).

(** The world after the writes of the listed contents, in order. *)
Definition written (w : world) (outputs : list (string * string)) : world :=
  fold_left (fun w out =>
               {| files := <[fst out := File (snd out)]> (files w);
                  trace := trace w ++ [WriteText (fst out) (snd out)] |})
    outputs w.

(** The six files of the default command and their contents. *)
Definition reports `{Writer} (p : pydict _Flavor.t) : list (string * string) :=
  let original := Editor.view _Flavor.original p in
  let custom := Editor.view _Flavor.custom p in
  let diff := Editor.view _Flavor.dict p in
  [(with_suffix "palette-original.toml" ".toml", toml_encode original);
   (with_suffix "palette-original.toml" ".json",
    json_format (json_encode original));
   (with_suffix "palette-custom.toml" ".toml", toml_encode custom);
   (with_suffix "palette-custom.toml" ".json",
    json_format (json_encode custom));
   (with_suffix "palette-dict.toml" ".toml", toml_encode diff);
   (with_suffix "palette-dict.toml" ".json", json_format (json_encode diff))].

(** * Properties *)

(** ** Results *)

Lemma rmap_Ok_inv {A B} (f : A -> result B) (l : list A) (ys : list B) :
  rmap f l = Ok ys -> Forall2 (fun x y => f x = Ok y) l ys.
Proof.
  revert ys. induction l as [|x l IH]; intros ys; simpl.
  - intros [= <-]. constructor.
  - destruct (f x) as [y|e] eqn:Hx; simpl; [|discriminate].
    destruct (rmap f l) as [ys'|e] eqn:Hl; simpl; [|discriminate].
    intros [= <-]. constructor; auto.
Qed.

Lemma rmap_Raise_inv {A B} (f : A -> result B) (l : list A) (e : exn) :
  rmap f l = Raise e -> exists x, x ∈ l /\ f x = Raise e.
Proof.
  induction l as [|x l IH]; simpl; [discriminate|].
  destruct (f x) as [y|e'] eqn:Hx; simpl.
  - destruct (rmap f l) as [ys'|e'] eqn:Hl; simpl; [discriminate|].
    intros [= <-]. destruct IH as (x' & Hin & Hf); [done|].
    exists x'. split; [by apply list_elem_of_further|done].
  - intros [= <-]. exists x. split; [apply list_elem_of_here|done].
Qed.

Lemma rmap_Raise_intro {A B} (f : A -> result B) (l : list A) (x : A) (e : exn) :
  x ∈ l -> f x = Raise e -> exists e', rmap f l = Raise e'.
Proof.
  intros Hin Hx. destruct (rmap f l) as [ys|e'] eqn:Hl; [|eauto].
  apply rmap_Ok_inv in Hl.
  apply list_elem_of_lookup in Hin as [i Hi].
  destruct (Forall2_lookup_l _ _ _ _ _ Hl Hi) as (y & _ & Hy). congruence.
Qed.

(** ** Dictionaries *)

Section Dict.
Context {V : Type}.
Implicit Types (d : pydict V) (k : string) (v : V).

Lemma dict_get_set k k' v d :
  dict_get k (dict_set k' v d) =
  if String.eqb k' k then Some v else dict_get k d.
Proof.
  induction d as [|[k0 v0] d IH]; simpl; [done|].
  destruct (String.eqb_spec k0 k') as [->|Hne]; simpl.
  - by destruct (String.eqb_spec k' k).
  - rewrite IH.
    destruct (String.eqb_spec k0 k), (String.eqb_spec k' k); congruence.
Qed.

Lemma dict_keys_set k v d :
  dict_keys (dict_set k v d) =
  if bool_decide (k ∈ dict_keys d) then dict_keys d else dict_keys d ++ [k].
Proof.
  induction d as [|[k0 v0] d IH]; simpl; [done|].
  destruct (String.eqb_spec k0 k) as [->|Hne]; simpl.
  - rewrite bool_decide_eq_true_2; [done|]. apply list_elem_of_here.
  - rewrite IH. unfold dict_keys.
    destruct (bool_decide_reflect (k ∈ map fst d)) as [Hin|Hin].
    + rewrite bool_decide_eq_true_2; [done|]. by apply list_elem_of_further.
    + rewrite bool_decide_eq_false_2; [done|].
      rewrite elem_of_cons. naive_solver.
Qed.

Lemma dict_set_NoDup k v d :
  NoDup (dict_keys d) -> NoDup (dict_keys (dict_set k v d)).
Proof.
  intros Hnd. rewrite dict_keys_set. case_bool_decide as Hin; [done|].
  apply NoDup_app. split_and!; [done| |apply NoDup_singleton].
  intros x Hx ->%list_elem_of_singleton. done.
Qed.

Lemma dict_get_app k d d' :
  dict_get k (d ++ d') =
  match dict_get k d with Some v => Some v | None => dict_get k d' end.
Proof.
  induction d as [|[k0 v0] d IH]; simpl; [done|].
  by destruct (String.eqb k0 k).
Qed.

Lemma dict_get_None k d : dict_get k d = None <-> k ∉ dict_keys d.
Proof.
  induction d as [|[k0 v0] d IH]; simpl.
  - split; [intros _; apply not_elem_of_nil|done].
  - rewrite not_elem_of_cons.
    destruct (String.eqb_spec k0 k) as [->|Hne]; naive_solver.
Qed.

Lemma dict_get_Some_elem k v d : dict_get k d = Some v -> (k, v) ∈ d.
Proof.
  induction d as [|[k0 v0] d IH]; simpl; [done|].
  destruct (String.eqb_spec k0 k) as [->|Hne].
  - intros [= ->]. apply list_elem_of_here.
  - intros H. apply list_elem_of_further. auto.
Qed.

Lemma dict_elem_get k v d :
  NoDup (dict_keys d) -> (k, v) ∈ d -> dict_get k d = Some v.
Proof.
  induction d as [|[k0 v0] d IH]; simpl.
  - intros _ H. by apply elem_of_nil in H.
  - intros [Hk Hnd]%NoDup_cons [[= <- <-]|Hin]%elem_of_cons.
    + by rewrite String.eqb_refl.
    + destruct (String.eqb_spec k0 k) as [->|Hne]; [|auto].
      exfalso. apply Hk. unfold dict_keys.
      apply list_elem_of_fmap. by exists (k, v).
Qed.
End Dict.

Lemma elem_of_rev {A} (x : A) (l : list A) : x ∈ rev l <-> x ∈ l.
Proof. rewrite !list_elem_of_In. symmetry. apply in_rev. Qed.

Section DictOf.
Context {V : Type}.
Implicit Types (d : pydict V) (k : string) (v : V)
  (items : list (string * V)).

Let step := fun d (kv : string * V) => dict_set (fst kv) (snd kv) d.

Lemma dict_get_Some_split k v d :
  dict_get k d = Some v ->
  exists a b, d = a ++ (k, v) :: b /\ k ∉ dict_keys a.
Proof.
  induction d as [|[k0 v0] d IH]; simpl; [done|].
  destruct (String.eqb_spec k0 k) as [->|Hne].
  - intros [= ->]. exists [], d. split; [done|apply not_elem_of_nil].
  - intros (a & b & -> & Ha)%IH. exists ((k0, v0) :: a), b.
    split; [done|]. simpl. rewrite not_elem_of_cons. auto.
Qed.

Lemma dict_get_split k v a b :
  k ∉ dict_keys a -> dict_get k (a ++ (k, v) :: b) = Some v.
Proof.
  intros Ha. rewrite dict_get_app.
  apply dict_get_None in Ha as ->. simpl. by rewrite String.eqb_refl.
Qed.

Lemma dict_fold_get items d k :
  dict_get k (fold_left step items d) =
  match dict_get k (rev items) with
  | Some v => Some v
  | None => dict_get k d
  end.
Proof.
  revert d. induction items as [|[k0 v0] items IH]; intros d; simpl; [done|].
  rewrite IH, dict_get_app. destruct (dict_get k (rev items)); [done|].
  unfold step at 1. simpl. rewrite dict_get_set.
  by destruct (String.eqb k0 k).
Qed.

Lemma dict_fold_NoDup items d :
  NoDup (dict_keys d) -> NoDup (dict_keys (fold_left step items d)).
Proof.
  revert d. induction items as [|kv items IH]; intros d Hd; simpl; [done|].
  apply IH. by apply dict_set_NoDup.
Qed.

(** A dictionary built from pairs has each key once. *)
Lemma dict_of_NoDup items : NoDup (dict_keys (dict_of items)).
Proof. apply dict_fold_NoDup. constructor. Qed.

(** The value of a key is the one of the last pair that has the key. *)
Lemma dict_of_get_last items k v l1 l2 :
  items = l1 ++ (k, v) :: l2 -> k ∉ map fst l2 ->
  dict_get k (dict_of items) = Some v.
Proof.
  intros -> Hk. unfold dict_of. fold step. rewrite dict_fold_get.
  rewrite rev_app_distr. simpl. rewrite <- app_assoc. simpl.
  rewrite dict_get_split; [done|].
  unfold dict_keys. rewrite map_rev. by rewrite elem_of_rev.
Qed.

Lemma dict_of_get_inv items k v :
  dict_get k (dict_of items) = Some v ->
  exists l1 l2, items = l1 ++ (k, v) :: l2 /\ k ∉ map fst l2.
Proof.
  unfold dict_of. fold step. rewrite dict_fold_get. simpl.
  destruct (dict_get k (rev items)) as [v'|] eqn:Hget; [|done].
  intros [= ->]. apply dict_get_Some_split in Hget as (a & b & Hrev & Ha).
  exists (rev b), (rev a). split.
  - rewrite <- (rev_involutive items), Hrev, rev_app_distr. simpl.
    by rewrite <- app_assoc.
  - rewrite map_rev, elem_of_rev. exact Ha.
Qed.

Lemma dict_of_get_None items k :
  dict_get k (dict_of items) = None <-> k ∉ map fst items.
Proof.
  unfold dict_of. fold step. rewrite dict_fold_get. simpl.
  destruct (dict_get k (rev items)) as [v'|] eqn:Hget.
  - split; [done|]. intros Hk. exfalso.
    assert (dict_get k (rev items) = None) as Hnone; [|congruence].
    apply dict_get_None. unfold dict_keys. by rewrite map_rev, elem_of_rev.
  - split; [|done]. intros _. apply dict_get_None in Hget.
    unfold dict_keys in Hget. by rewrite map_rev, elem_of_rev in Hget.
Qed.

Lemma dict_of_keys items k :
  k ∈ dict_keys (dict_of items) <-> k ∈ map fst items.
Proof.
  destruct (decide (k ∈ map fst items)) as [Hin|Hin].
  - split; [done|]. intros _.
    destruct (decide (k ∈ dict_keys (dict_of items))) as [|Hn]; [done|].
    apply dict_get_None, dict_of_get_None in Hn. done.
  - split; [|done]. intros Hk. exfalso.
    apply dict_of_get_None in Hin. apply dict_get_None in Hin. done.
Qed.

Lemma dict_of_elem items k v :
  (k, v) ∈ dict_of items <-> dict_get k (dict_of items) = Some v.
Proof.
  split; [apply dict_elem_get, dict_of_NoDup|apply dict_get_Some_elem].
Qed.
End DictOf.

(** ** Edit rules *)

(** C8. Whatever the current value [v] of the channel, a rule of mode
    ['value'] (absolute) returns the rule's value and ignores [v], and a
    rule of mode ['multiply'] returns [v] multiplied by the rule's value. *)
Theorem edit_call_modes (variable : string) (value : float)
    (name : option string) (accent : option bool) (v : float) :
  _Edit.__call__ (_Edit.mk variable value "value" name accent) v = Ok value /\
  _Edit.__call__ (_Edit.mk variable value "multiply" name accent) v
    = Ok (v * value)%float.
Proof. split; reflexivity. Qed.

(** C9. A rule of mode ['value'] is idempotent: applied to what it
    returned it returns the same, the rule's value, whatever the channel
    held; and on a colour it matches, applying it twice stores the rule's
    value twice in the channel, the second time over the first: nothing
    accumulates. *)
Theorem edit_absolute_idempotent `{ColorSpace} (variable : string)
    (value : float) (name : option string) (accent : option bool)
    (v : float) (color : models.Color.t) (c : okhsl) :
  let edit := _Edit.mk variable value "value" name accent in
  (try v' := _Edit.__call__ edit v in _Edit.__call__ edit v')
    = _Edit.__call__ edit v /\
  _Edit.__call__ edit v = Ok value /\
  (matches edit color = true ->
   apply_edits color [edit; edit] c =
   match channel c variable with
   | None => Raise (ChannelError variable)
   | Some _ =>
       match channel (store c variable value) variable with
       | None => Raise (ChannelError variable)
       | Some _ => Ok (store (store c variable value) variable value)
       end
   end).
Proof.
  split_and!; [reflexivity..|].
  intros Hm. simpl. rewrite Hm. unfold set. simpl.
  destruct (channel c variable); simpl; [|done].
  by destruct (channel (store c variable value) variable).
Qed.

Lemma edit_absolute_idempotent_witness :
  let edit := _Edit.mk "l" 0 "value" None (Some true) in
  let color := models.Color.mk "Blue" "blue" true "#89b4fa" in
  let c := fixture.mk "#89b4fa" 0 0 0.5 in
  _Edit.__call__ edit 0.5 = Ok 0%float /\
  @apply_edits fixture.space color [edit; edit] c
    = Ok (fixture.mk "#89b4fa" 0 0 0) /\
  @apply_edits fixture.space color [edit; edit] c
    = @apply_edits fixture.space color [edit] c.
Proof.
  destruct (@edit_absolute_idempotent fixture.space "l" 0%float None
              (Some true) 0.5%float
              (models.Color.mk "Blue" "blue" true "#89b4fa")
              (fixture.mk "#89b4fa" 0 0 0.5)) as (_ & Hcall & Htwice).
  split_and!; [exact Hcall|by rewrite Htwice|by rewrite Htwice].
Defined.

(** On a colour the rule matches, the two applications of an absolute rule
    store the same number in the same channel. *)
Lemma absolute_rule_stores_value `{ColorSpace} (edit : _Edit.t) (c : okhsl) :
  _Edit.type edit = "value" ->
  set c (_Edit.variable edit) (_Edit.__call__ edit) =
  match channel c (_Edit.variable edit) with
  | Some _ => Ok (store c (_Edit.variable edit) (_Edit.value edit))
  | None => Raise (ChannelError (_Edit.variable edit))
  end.
Proof.
  intros Hty. unfold set, _Edit.__call__. rewrite Hty. simpl.
  by destruct (channel c (_Edit.variable edit)).
Qed.

(** ** Matching *)

Lemma in_names_true (x : option string) (a b : string) :
  in_names x a b = true <-> exists n, x = Some n /\ (n = a \/ n = b).
Proof.
  destruct x as [n|]; simpl.
  - rewrite orb_true_iff, !String.eqb_eq. naive_solver.
  - naive_solver.
Qed.

Lemma eq_flag_true (x : option bool) (b : bool) :
  eq_flag x b = true <-> exists a, x = Some a /\ a = b.
Proof.
  destruct x as [a|]; simpl.
  - rewrite Bool.eqb_true_iff. naive_solver.
  - naive_solver.
Qed.

(** C5. A rule matches a colour exactly when its name filter is set and is
    the colour's name or its identifier, or its accent filter is set and is
    the colour's accent flag; one of the two is enough when both are set. *)
Theorem matches_iff (edit : _Edit.t) (color : models.Color.t) :
  matches edit color = true <->
  (exists n, _Edit.name edit = Some n /\
     (n = models.Color.name color \/ n = models.Color.identifier color)) \/
  (exists a, _Edit.accent edit = Some a /\ a = models.Color.accent color).
Proof.
  unfold matches. by rewrite orb_true_iff, in_names_true, eq_flag_true.
Qed.

(** A rule that does not match is skipped by the loop. *)
Lemma apply_edits_skip `{ColorSpace} (color : models.Color.t)
    (edit : _Edit.t) (rest : list _Edit.t) (c : okhsl) :
  matches edit color = false ->
  apply_edits color (edit :: rest) c = apply_edits color rest c.
Proof. intros Hm. simpl. by rewrite Hm. Qed.

Lemma apply_edits_no_match `{ColorSpace} (color : models.Color.t)
    (edits : list _Edit.t) (c : okhsl) :
  Forall (fun edit => matches edit color = false) edits ->
  apply_edits color edits c = Ok c.
Proof.
  induction 1 as [|edit rest Hm _ IH]; [done|].
  by rewrite apply_edits_skip.
Qed.

(** C1 does not hold as the specification states it: the rule below has no name filter
    and no accent filter, and it does not match the colour. *)
Lemma unfiltered_rule_misses_blue :
  let edit := _Edit.mk "l" 0.5 "value" None None in
  let color := models.Color.mk "Blue" "blue" true "#89b4fa" in
  _Edit.name edit = None /\ _Edit.accent edit = None /\
  matches edit color = false.
Proof. repeat split. Qed.

(** C1, amended. A rule whose name filter and accent filter are both unset
    matches no colour: the loop skips it, and its transform is applied to
    no channel. *)
Theorem unfiltered_rule_matches_nothing `{ColorSpace} (edit : _Edit.t)
    (color : models.Color.t) (rest : list _Edit.t) (c : okhsl) :
  _Edit.name edit = None -> _Edit.accent edit = None ->
  matches edit color = false /\
  apply_edits color (edit :: rest) c = apply_edits color rest c.
Proof.
  intros Hn Ha.
  assert (matches edit color = false) as Hm.
  { unfold matches. by rewrite Hn, Ha. }
  split; [done|]. by apply apply_edits_skip.
Qed.

Lemma unfiltered_rule_matches_nothing_witness :
  let edit := _Edit.mk "l" 0 "value" None None in
  let color := models.Color.mk "Blue" "blue" true "#89b4fa" in
  let c := fixture.mk "#89b4fa" 0 0 0.5 in
  matches edit color = false /\
  @apply_edits fixture.space color [edit] c = Ok c.
Proof.
  exact (@unfiltered_rule_matches_nothing fixture.space
           (_Edit.mk "l" 0 "value" None None)
           (models.Color.mk "Blue" "blue" true "#89b4fa") []
           (fixture.mk "#89b4fa" 0 0 0.5) eq_refl eq_refl).
Defined.

(** ** Substitution *)

Lemma substitute_cons (old new : string) (rest : pydict string) (text : string) :
  substitute ((old, new) :: rest) text = substitute rest (replace old new text).
Proof. reflexivity. Qed.

(** ** Colours and the diff view *)

Lemma create_Ok_inv `{ColorSpace} (color : models.Color.t)
    (edits : list _Edit.t) (r : _Colors.t) :
  _Colors.create color edits = Ok r ->
  _Colors.original r = models.Color.hex color /\
  _Colors.changed r
    = negb (String.eqb (_Colors.original r) (_Colors.custom r)).
Proof.
  unfold _Colors.create.
  destruct (parse (models.Color.hex color)) as [c|]; simpl; [|discriminate].
  destruct (apply_edits color edits c) as [c'|]; simpl; [|discriminate].
  intros [= <-]. done.
Qed.

Lemma changed_iff (r : _Colors.t) :
  _Colors.changed r
    = negb (String.eqb (_Colors.original r) (_Colors.custom r)) ->
  _Colors.changed r = true <-> _Colors.original r <> _Colors.custom r.
Proof.
  intros ->. rewrite negb_true_iff.
  destruct (String.eqb_spec (_Colors.original r) (_Colors.custom r));
    naive_solver.
Qed.




Lemma flavor_create_Ok_inv `{ColorSpace} (flavor : models.Flavor.t)
    (edits : list _Edit.t) (f : _Flavor.t) :
  _Flavor.create flavor edits = Ok f ->
  Forall2 (fun color r => _Colors.create color edits = Ok r)
    (models.Flavor.colors flavor) (_Flavor.colors f).
Proof.
  unfold _Flavor.create.
  destruct (rmap _ (models.Flavor.colors flavor)) as [cs|] eqn:Hcs; simpl;
    [|discriminate].
  intros [= <-]. simpl. by apply rmap_Ok_inv in Hcs.
Qed.

Lemma flavor_changed_flags `{ColorSpace} (flavor : models.Flavor.t)
    (edits : list _Edit.t) (f : _Flavor.t) (c : _Colors.t) :
  _Flavor.create flavor edits = Ok f -> c ∈ _Flavor.colors f ->
  _Colors.changed c = true <-> _Colors.original c <> _Colors.custom c.
Proof.
  intros Hf%flavor_create_Ok_inv [i Hi]%list_elem_of_lookup.
  destruct (Forall2_lookup_r _ _ _ _ _ Hf Hi) as (color & _ & Hc).
  apply changed_iff. by apply create_Ok_inv in Hc as [_ ?].
Qed.

Lemma changed_pairs_split (f : _Flavor.t) (o v : string)
    (l1 l2 : list (string * string)) :
  _Flavor.changed_pairs f = l1 ++ (o, v) :: l2 ->
  exists m1 c m2,
    filter (fun c => _Colors.changed c = true) (_Flavor.colors f)
      = m1 ++ c :: m2 /\
    _Colors.original c = o /\ _Colors.custom c = v /\
    map (fun c => (_Colors.original c, _Colors.custom c)) m2 = l2.
Proof.
  unfold _Flavor.changed_pairs.
  intros (m1 & m2' & Hsplit & _ & Hm2)%map_eq_app.
  apply map_eq_cons in Hm2 as (c & m2 & -> & [= Ho Hv] & Hl2).
  exists m1, c, m2. done.
Qed.

(** The view [dict] maps the original of each changed colour to the custom
    value of the last changed colour that has this original. *)
Lemma flavor_dict_elem (f : _Flavor.t) (o v : string) :
  (o, v) ∈ _Flavor.dict f <->
  exists m1 c m2,
    filter (fun c => _Colors.changed c = true) (_Flavor.colors f)
      = m1 ++ c :: m2 /\
    _Colors.original c = o /\ _Colors.custom c = v /\
    forall c', c' ∈ m2 -> _Colors.original c' <> o.
Proof.
  unfold _Flavor.dict. rewrite dict_of_elem. split.
  - intros (l1 & l2 & Hsplit & Hlast)%dict_of_get_inv.
    apply changed_pairs_split in Hsplit as (m1 & c & m2 & Hf & Ho & Hv & <-).
    exists m1, c, m2. split_and!; [done..|].
    intros c' Hc' Heq. apply Hlast. rewrite map_map. simpl.
    apply list_elem_of_fmap. by exists c'.
  - intros (m1 & c & m2 & Hf & <- & <- & Hlast).
    apply dict_of_get_last with
      (l1 := map (fun c => (_Colors.original c, _Colors.custom c)) m1)
      (l2 := map (fun c => (_Colors.original c, _Colors.custom c)) m2).
    + unfold _Flavor.changed_pairs. by rewrite Hf, map_app.
    + rewrite map_map. simpl.
      intros (c' & Heq & Hc')%list_elem_of_fmap. by apply (Hlast c').
Qed.

(** C7 does not hold as the specification states it for a flavor in which two changed
    colours have the same original: the first colour is changed, and its
    pair is not in the view. The flavor is the one [_Flavor.create] builds
    from two grey colours and a pair of rules sending accents to black and
    the others to white. *)
Lemma diff_drops_shadowed_pair :
  let first := _Colors.mk "a" "#808080" "#000000" true in
  let second := _Colors.mk "b" "#808080" "#ffffff" true in
  let f := _Flavor.mk "greys" [first; second] in
  @_Flavor.create fixture.space
    (models.Flavor.mk "Greys" "greys" true
       [models.Color.mk "A" "a" true "#808080";
        models.Color.mk "B" "b" false "#808080"])
    [_Edit.mk "l" 0 "value" None (Some true);
     _Edit.mk "l" 1 "value" None (Some false)] = Ok f /\
  first ∈ _Flavor.colors f /\
  _Colors.changed first = true /\
  _Colors.original first <> _Colors.custom first /\
  _Flavor.dict f = [("#808080", "#ffffff")] /\
  (_Colors.original first, _Colors.custom first) ∉ _Flavor.dict f.
Proof.
  simpl. split_and!.
  - reflexivity.
  - apply list_elem_of_here.
  - reflexivity.
  - discriminate.
  - reflexivity.
  - change (("#808080", "#000000") ∉ [("#808080", "#ffffff")]).
    intros [=]%list_elem_of_singleton.
Qed.

(** C7, amended. In every flavor that is created, [changed] holds exactly
    for the colours whose original differs from the custom value; the diff
    view has one entry for each original of a changed colour, with the
    custom value of the last changed colour that has this original, so that
    it holds exactly the pairs of the changed colours when their originals
    are pairwise distinct; and no entry maps a value to itself. *)
Theorem diff_view_entries `{ColorSpace} (flavor : models.Flavor.t)
    (edits : list _Edit.t) (f : _Flavor.t) :
  _Flavor.create flavor edits = Ok f ->
  (forall c, c ∈ _Flavor.colors f ->
     (_Colors.changed c = true <-> _Colors.original c <> _Colors.custom c)) /\
  NoDup (dict_keys (_Flavor.dict f)) /\
  (forall o, o ∈ dict_keys (_Flavor.dict f) <->
     exists c, c ∈ _Flavor.colors f /\ _Colors.changed c = true /\
               _Colors.original c = o) /\
  (forall o v, (o, v) ∈ _Flavor.dict f <->
     exists m1 c m2,
       filter (fun c => _Colors.changed c = true) (_Flavor.colors f)
         = m1 ++ c :: m2 /\
       _Colors.original c = o /\ _Colors.custom c = v /\
       forall c', c' ∈ m2 -> _Colors.original c' <> o) /\
  (NoDup (map _Colors.original
            (filter (fun c => _Colors.changed c = true) (_Flavor.colors f))) ->
   forall o v, (o, v) ∈ _Flavor.dict f <->
     exists c, c ∈ _Flavor.colors f /\ _Colors.changed c = true /\
               _Colors.original c = o /\ _Colors.custom c = v) /\
  (forall o v, (o, v) ∈ _Flavor.dict f -> o <> v).
Proof.
  intros Hf.
  assert (forall o v, (o, v) ∈ _Flavor.dict f ->
            exists c, c ∈ _Flavor.colors f /\ _Colors.changed c = true /\
                      _Colors.original c = o /\ _Colors.custom c = v) as Hsound.
  { intros o v (m1 & c & m2 & Hsplit & Ho & Hv & _)%flavor_dict_elem.
    assert (c ∈ filter (fun c => _Colors.changed c = true) (_Flavor.colors f))
      as [Hc Hin]%list_elem_of_filter.
    { rewrite Hsplit, elem_of_app, elem_of_cons. auto. }
    by exists c. }
  split_and!.
  - intros c Hc. by apply (flavor_changed_flags flavor edits f).
  - apply dict_of_NoDup.
  - intros o. unfold _Flavor.dict. rewrite dict_of_keys.
    unfold _Flavor.changed_pairs. rewrite map_map. simpl. split.
    + intros (c & -> & [Hc Hin]%list_elem_of_filter)%list_elem_of_fmap.
      by exists c.
    + intros (c & Hin & Hc & <-). apply list_elem_of_fmap. exists c.
      split; [done|]. by apply list_elem_of_filter.
  - apply flavor_dict_elem.
  - intros Hnd o v. split; [apply Hsound|].
    intros (c & Hin & Hc & Ho & Hv). apply flavor_dict_elem.
    assert (c ∈ filter (fun c => _Colors.changed c = true) (_Flavor.colors f))
      as (m1 & m2 & Hsplit)%list_elem_of_split.
    { by apply list_elem_of_filter. }
    exists m1, c, m2. split_and!; [done..|].
    intros c' Hc' Heq. rewrite Hsplit, map_app in Hnd. simpl in Hnd.
    apply NoDup_app in Hnd as (_ & _ & [Hnot _]%NoDup_cons).
    apply Hnot. apply list_elem_of_fmap. exists c'. split; [congruence|done].
  - intros o v (c & Hin & Hc & <- & <-)%Hsound.
    by apply (flavor_changed_flags flavor edits f c Hf Hin).
Qed.

Lemma diff_view_entries_witness :
  let f := _Flavor.mk "mocha"
             [_Colors.mk "blue" "#89b4fa" "#000000" true;
              _Colors.mk "base" "#1e1e2e" "#1e1e2e" false] in
  _Flavor.dict f = [("#89b4fa", "#000000")] /\
  forall o v, (o, v) ∈ _Flavor.dict f -> o <> v.
Proof.
  split; [reflexivity|].
  apply (@diff_view_entries fixture.space
           (models.Flavor.mk "Mocha" "mocha" true
              [models.Color.mk "Blue" "blue" true "#89b4fa";
               models.Color.mk "Base" "base" false "#1e1e2e"])
           [_Edit.mk "l" 0 "value" None (Some true)]).
  reflexivity.
Defined.

(** ** Merging the diff views *)

Lemma NoDup_keys_once {V} (d : pydict V) (k : string) :
  NoDup (dict_keys d) -> k ∈ dict_keys d ->
  length (filter (fun kv : string * V => fst kv = k) d) = 1.
Proof.
  induction d as [|[k0 v0] d IH]; intros Hnd Hk.
  - by apply elem_of_nil in Hk.
  - unfold dict_keys in Hnd, Hk. simpl in Hnd, Hk.
    apply NoDup_cons in Hnd as [Hk0 Hnd].
    apply elem_of_cons in Hk as [->|Hk].
    + rewrite filter_cons_True by done. simpl. f_equal.
      destruct (filter _ d) as [|[k1 v1] l] eqn:Hfilter; [done|]. exfalso.
      assert ((k1, v1) ∈ filter (fun kv : string * V => fst kv = k0) d)
        as [Heq Hin]%list_elem_of_filter.
      { rewrite Hfilter. apply list_elem_of_here. }
      simpl in Heq. subst k1.
      apply Hk0. apply list_elem_of_fmap. by exists (k0, v1).
    + rewrite filter_cons_False; [by apply IH|].
      simpl. intros ->. done.
Qed.

Lemma concat_keys (flavors : list _Flavor.t) (k : string) :
  k ∈ map fst (concat (map _Flavor.dict flavors)) <->
  exists f, f ∈ flavors /\ k ∈ dict_keys (_Flavor.dict f).
Proof.
  induction flavors as [|f0 flavors IH]; simpl.
  - split; [by intros ?%elem_of_nil|].
    intros (f & Hf & _). by apply elem_of_nil in Hf.
  - rewrite map_app, elem_of_app, IH. split.
    + intros [Hk|(f & Hf & Hk)].
      * exists f0. split; [apply list_elem_of_here|done].
      * exists f. split; [by apply list_elem_of_further|done].
    + intros (f & [->|Hf]%elem_of_cons & Hk); [by left|right; by exists f].
Qed.

(** The dictionary made of the pairs of several diff views: an original
    that several views have keeps the value of the last of them, and it is
    one key. *)
Lemma merged_dict_facts (flavors : list _Flavor.t) :
  let merged := dict_of (concat (map _Flavor.dict flavors)) in
  (forall before f after k v,
     flavors = before ++ f :: after ->
     dict_get k (_Flavor.dict f) = Some v ->
     (forall f', f' ∈ after -> dict_get k (_Flavor.dict f') = None) ->
     dict_get k merged = Some v) /\
  (forall k, k ∈ dict_keys merged <->
     exists f, f ∈ flavors /\ k ∈ dict_keys (_Flavor.dict f)) /\
  NoDup (dict_keys merged) /\
  (forall k, k ∈ dict_keys merged ->
     length (filter (fun kv : string * string => fst kv = k) merged) = 1).
Proof.
  simpl. split_and!.
  - intros before f after k v -> Hget Hafter.
    pose proof (dict_of_NoDup (_Flavor.changed_pairs f)) as Hnd.
    fold (_Flavor.dict f) in Hnd.
    apply dict_get_Some_split in Hget as (a & b & Hsplit & Ha).
    rewrite Hsplit in Hnd. unfold dict_keys in Hnd.
    rewrite map_app in Hnd. simpl in Hnd.
    apply NoDup_app in Hnd as (_ & _ & [Hb _]%NoDup_cons).
    apply dict_of_get_last with
      (l1 := concat (map _Flavor.dict before) ++ a)
      (l2 := b ++ concat (map _Flavor.dict after)).
    + rewrite map_app, concat_app. simpl. rewrite Hsplit.
      by rewrite <- !app_assoc.
    + rewrite map_app, elem_of_app. intros [Hk|Hk]; [done|].
      apply concat_keys in Hk as (f' & Hf' & Hk).
      apply Hafter in Hf'. by apply dict_get_None in Hf'.
  - intros k. rewrite dict_of_keys. apply concat_keys.
  - apply dict_of_NoDup.
  - intros k Hk. apply NoDup_keys_once; [apply dict_of_NoDup|done].
Qed.

(** ** The substitution command *)

(** C4. When the destination, given or derived from the stem of the source,
    exists, the command raises [FileExistsError] for it; the only access
    made to the file system is the test of existence, so that neither the
    configuration nor the source is read and nothing is written; and the
    files, the destination among them, are as they were. *)
Theorem replace_existing_destination `{ColorSpace} `{Decoder} `{Dataset}
    `{Pathlib} `{Locale} (self : Replace.t) (w : world) (d : string) :
  Replace.resolve self = Ok d ->
  is_Some (files w !! d) ->
  Replace.__call__ self w
    = (Raise (FileExistsError d),
       {| files := files w; trace := trace w ++ [Exists d] |}) /\
  files (snd (Replace.__call__ self w)) !! d = files w !! d.
Proof.
  intros Hres Hex.
  assert (Replace.__call__ self w
          = (Raise (FileExistsError d),
             {| files := files w; trace := trace w ++ [Exists d] |})) as Hcall.
  { unfold Replace.__call__, Replace._dst, bind, lift, path_exists.
    rewrite Hres. by rewrite bool_decide_eq_true_2. }
  split; [done|]. by rewrite Hcall.
Qed.

Lemma replace_existing_destination_witness :
  let self := Replace.mk "theme.css" None "config.toml" in
  let w := mkWorld {[ "theme.css" := File "#89b4fa";
                      "theme-replaced.css" := File "kept";
                      "config.toml" := File fixture.conf_text ]} [] in
  @Replace.__call__ fixture.space fixture.decoder fixture.dataset
    fixture.pathlib fixture.locale self w
    = (Raise (FileExistsError "theme-replaced.css"),
       {| files := files w; trace := [Exists "theme-replaced.css"] |}) /\
  files (snd (@Replace.__call__ fixture.space fixture.decoder fixture.dataset
                fixture.pathlib fixture.locale self w)) !! "theme-replaced.css"
    = Some (File "kept").
Proof.
  apply (@replace_existing_destination fixture.space fixture.decoder
           fixture.dataset fixture.pathlib fixture.locale
           (Replace.mk "theme.css" None "config.toml")).
  - reflexivity.
  - exists (File "kept"). reflexivity.
Defined.

Example replace_call_example :
  let self := Replace.mk "theme.css" None "config.toml" in
  let w := mkWorld {[ "theme.css" := File "a { color: #89b4fa; b: #1e1e2e }";
                      "config.toml" := File fixture.conf_text ]} [] in
  let out := @Replace.__call__ fixture.space fixture.decoder fixture.dataset
               fixture.pathlib fixture.locale self w in
  fst out = Ok tt /\
  files (snd out) !! "theme-replaced.css"
    = Some (File "a { color: #000000; b: #1e1e2e }") /\
  files (snd out) !! "theme.css"
    = Some (File "a { color: #89b4fa; b: #1e1e2e }") /\
  trace (snd out)
    = [Exists "theme-replaced.css"; ReadBytes "config.toml";
       ReadText "theme.css";
       WriteText "theme-replaced.css" "a { color: #000000; b: #1e1e2e }"].
Proof. vm_compute. repeat split. Qed.

(** ** Rule modes and the configuration *)

Lemma call_other_mode (edit : _Edit.t) (v : float) :
  other_mode (_Edit.type edit) ->
  _Edit.__call__ edit v = Raise (ValueError (_Edit.type edit)).
Proof.
  intros [Hv Hm]. unfold _Edit.__call__.
  destruct (String.eqb_spec (_Edit.type edit) "value"); [done|].
  by destruct (String.eqb_spec (_Edit.type edit) "multiply").
Qed.

Lemma as_literal_other_mode (m : string) :
  other_mode m ->
  as_literal ["value"; "multiply"] (TString m) = Raise ValidationError.
Proof.
  intros [Hv Hm]. simpl.
  destruct (String.eqb_spec m "value"); [done|].
  by destruct (String.eqb_spec m "multiply").
Qed.

Lemma as_str_validates : validates as_str.
Proof. intros [] e; simpl; congruence. Qed.

Lemma as_float_validates : validates as_float.
Proof. intros [] e; simpl; congruence. Qed.

Lemma as_bool_validates : validates as_bool.
Proof. intros [] e; simpl; congruence. Qed.

Lemma as_literal_validates (allowed : list string) :
  validates (as_literal allowed).
Proof.
  intros [] e; simpl; try congruence.
  destruct (existsb _ allowed); congruence.
Qed.

Lemma as_some_validates {A} (conv : toml -> result A) :
  validates conv -> validates (as_some conv).
Proof.
  intros Hconv v e. unfold as_some.
  destruct (conv v) eqn:Hv; simpl; [discriminate|].
  intros [= <-]. eauto.
Qed.

Lemma required_raises {A} (conv : toml -> result A) k fields e :
  validates conv -> required conv k fields = Raise e -> e = ValidationError.
Proof.
  intros Hconv. unfold required.
  destruct (dict_get k fields); [apply Hconv|congruence].
Qed.

Lemma optional_raises {A} (conv : toml -> result A) default k fields e :
  validates conv -> optional conv default k fields = Raise e ->
  e = ValidationError.
Proof.
  intros Hconv. unfold optional.
  destruct (dict_get k fields); [apply Hconv|discriminate].
Qed.

Lemma convert_edit_validates : validates convert_edit.
Proof.
  intros v e. destruct v as [| | | | | |fields]; simpl; try congruence.
  destruct (required as_str _ fields) eqn:H1; simpl;
    [|intros [= <-]; eapply required_raises, H1; apply as_str_validates].
  destruct (required as_float _ fields) eqn:H2; simpl;
    [|intros [= <-]; eapply required_raises, H2; apply as_float_validates].
  destruct (optional (as_literal _) _ _ fields) eqn:H3; simpl;
    [|intros [= <-]; eapply optional_raises, H3; apply as_literal_validates].
  destruct (optional (as_some as_str) _ _ fields) eqn:H4; simpl;
    [|intros [= <-]; eapply optional_raises, H4;
      apply as_some_validates, as_str_validates].
  destruct (optional (as_some as_bool) _ _ fields) eqn:H5; simpl;
    [discriminate|].
  intros [= <-]. eapply optional_raises, H5.
  apply as_some_validates, as_bool_validates.
Qed.

Lemma convert_edit_other_mode (fields : list (string * toml)) (m : string) :
  dict_get "type" fields = Some (TString m) -> other_mode m ->
  convert_edit (TTable fields) = Raise ValidationError.
Proof.
  intros Hty Hm.
  destruct (convert_edit (TTable fields)) as [edit|e] eqn:Hconv;
    [|by apply convert_edit_validates in Hconv as ->].
  exfalso. simpl in Hconv.
  destruct (required as_str _ fields); simpl in Hconv; [|discriminate].
  destruct (required as_float _ fields); simpl in Hconv; [|discriminate].
  unfold optional at 1 in Hconv. rewrite Hty in Hconv.
  by rewrite as_literal_other_mode in Hconv.
Qed.

Lemma convert_edits_validates : validates convert_edits.
Proof.
  intros v e. destruct v as [| | | | |items|]; simpl; try congruence.
  intros (x & _ & Hx)%rmap_Raise_inv. by apply convert_edit_validates in Hx.
Qed.

Lemma convert_config_other_mode (doc : list (string * toml)) (key : string)
    (items : list toml) (fields : list (string * toml)) (m : string) :
  (key, TArray items) ∈ doc -> TTable fields ∈ items ->
  dict_get "type" fields = Some (TString m) -> other_mode m ->
  convert_config doc = Raise ValidationError.
Proof.
  intros Hdoc Hitems Hty Hm. unfold convert_config.
  assert (exists e, convert_edits (TArray items) = Raise e) as [e He].
  { simpl. eapply rmap_Raise_intro; [exact Hitems|].
    by eapply convert_edit_other_mode. }
  match goal with |- rbind (rmap ?f doc) _ = _ =>
    destruct (rmap_Raise_intro f doc (key, TArray items) e Hdoc) as [e' He']
  end.
  { cbv beta. cbn [snd]. by rewrite He. }
  rewrite He'. simpl. f_equal.
  apply rmap_Raise_inv in He' as ([k v] & _ & Hkv). simpl in Hkv.
  destruct (convert_edits v) eqn:Hv; simpl in Hkv; [discriminate|].
  injection Hkv as <-. by apply convert_edits_validates in Hv.
Qed.

Lemma edits_other_mode `{Decoder} (self : Editor.t) (w : world)
    (text : string) (doc : list (string * toml)) (key : string)
    (items : list toml) (fields : list (string * toml)) (m : string) :
  files w !! Editor.conf self = Some (File text) ->
  toml_loads text = Some doc ->
  (key, TArray items) ∈ doc -> TTable fields ∈ items ->
  dict_get "type" fields = Some (TString m) -> other_mode m ->
  Editor.edits self w
    = (Raise ValidationError, record (ReadBytes (Editor.conf self)) w).
Proof.
  intros Hfile Hload Hdoc Hitems Hty Hm.
  unfold Editor.edits, bind, read_bytes, read, lift.
  rewrite Hfile, Hload.
  by rewrite (convert_config_other_mode doc key items fields m).
Qed.

(** C3 does not hold as the specification states it: the configuration
    below has a rule
    of mode ['add'], and loading it raises; so does the palette build,
    after the configuration file is read and before any rule is applied. *)
Lemma config_with_add_mode_not_loaded :
  let self := Editor.mk "config.toml" in
  let w := mkWorld {[ "config.toml" := File fixture.add_text ]} [] in
  dict_get "type"
    [("variable", TString "l"); ("value", TFloat 0.5); ("type", TString "add")]
    = Some (TString "add") /\
  convert_config fixture.add_doc = Raise ValidationError /\
  @Editor.edits fixture.decoder self w
    = (Raise ValidationError, record (ReadBytes "config.toml") w) /\
  @Editor.palette fixture.space fixture.decoder fixture.dataset self w
    = (Raise ValidationError, record (ReadBytes "config.toml") w).
Proof. vm_compute. repeat split. Qed.

(** C3, amended. A mode that is neither ['value'] nor ['multiply'] is
    refused when the configuration is decoded: loading a file that has a
    rule with such a mode raises a validation error, and so does the palette
    build, having done nothing but read the file. A rule object that
    carries such a mode raises [ValueError] each time it is applied: in the
    loop over the rules, at a colour it matches, once the channel is found;
    at a colour it does not match it is skipped. *)
Theorem other_mode_refused `{ColorSpace} `{Decoder} `{Dataset} (m : string) :
  other_mode m ->
  (forall self w text doc key items fields,
     files w !! Editor.conf self = Some (File text) ->
     toml_loads text = Some doc ->
     (key, TArray items) ∈ doc -> TTable fields ∈ items ->
     dict_get "type" fields = Some (TString m) ->
     Editor.edits self w
       = (Raise ValidationError, record (ReadBytes (Editor.conf self)) w) /\
     (PALETTE <> [] ->
      Editor.palette self w
        = (Raise ValidationError, record (ReadBytes (Editor.conf self)) w))) /\
  (forall edit v,
     _Edit.type edit = m -> _Edit.__call__ edit v = Raise (ValueError m)) /\
  (forall edit color rest c v,
     _Edit.type edit = m -> matches edit color = true ->
     channel c (_Edit.variable edit) = Some v ->
     apply_edits color (edit :: rest) c = Raise (ValueError m)) /\
  (forall edit color rest c,
     _Edit.type edit = m -> matches edit color = false ->
     apply_edits color (edit :: rest) c = apply_edits color rest c).
Proof.
  intros Hm. split_and!.
  - intros self w text doc key items fields Hfile Hload Hdoc Hitems Hty.
    assert (Editor.edits self w
            = (Raise ValidationError, record (ReadBytes (Editor.conf self)) w))
      as Hedits by by eapply edits_other_mode.
    split; [done|]. intros Hne. unfold Editor.palette.
    destruct PALETTE as [|flavor rest]; [done|].
    simpl. unfold bind. by rewrite Hedits.
  - intros edit v <-. by apply call_other_mode.
  - intros edit color rest c v <- Hmatch Hch. simpl. rewrite Hmatch.
    unfold set. rewrite Hch. by rewrite call_other_mode.
  - intros edit color rest c _ Hmatch. by apply apply_edits_skip.
Qed.

Lemma other_mode_refused_witness :
  let self := Editor.mk "config.toml" in
  let w := mkWorld {[ "config.toml" := File fixture.add_text ]} [] in
  let edit := _Edit.mk "l" 0.5 "add" None (Some true) in
  @Editor.edits fixture.decoder self w
    = (Raise ValidationError, record (ReadBytes "config.toml") w) /\
  _Edit.__call__ edit 0.25 = Raise (ValueError "add").
Proof.
  destruct (@other_mode_refused fixture.space fixture.decoder fixture.dataset
              "add") as (Hload & Hcall & _).
  - split; discriminate.
  - split.
    + apply (Hload (Editor.mk "config.toml")
               (mkWorld {[ "config.toml" := File fixture.add_text ]} [])
               fixture.add_text fixture.add_doc "dark"
               [TTable [("variable", TString "l"); ("value", TFloat 0.5);
                        ("type", TString "add")]]
               [("variable", TString "l"); ("value", TFloat 0.5);
                ("type", TString "add")]).
      * reflexivity.
      * reflexivity.
      * apply list_elem_of_further, list_elem_of_here.
      * apply list_elem_of_here.
      * reflexivity.
    + apply Hcall. reflexivity.
Defined.

(** * Further properties of the code *)

(** ** The loop over the rules *)

(** The loop over a concatenation of rules. *)
Lemma apply_edits_concat `{ColorSpace} (color : models.Color.t)
    (es1 es2 : list _Edit.t) (c : okhsl) :
  apply_edits color (es1 ++ es2) c =
  try c' := apply_edits color es1 c in apply_edits color es2 c'.
Proof.
  revert c. induction es1 as [|edit es1 IH]; intros c; simpl; [done|].
  destruct (matches edit color); [|apply IH].
  destruct (set c (_Edit.variable edit) (_Edit.__call__ edit)); simpl;
    [apply IH|done].
Qed.

(** X1. The rules of a list are applied in the order of the list: applying
    a concatenation is applying the first part and then, to the colour
    object it leaves, the second part; a failure in the first part is the
    failure of the whole. *)
Theorem apply_edits_app `{ColorSpace} (color : models.Color.t)
    (es1 es2 : list _Edit.t) (c : okhsl) :
  apply_edits color (es1 ++ es2) c =
  try c' := apply_edits color es1 c in apply_edits color es2 c'.
Proof.
  revert c. induction es1 as [|edit es1 IH]; intros c; simpl; [done|].
  destruct (matches edit color); [|apply IH].
  destruct (set c (_Edit.variable edit) (_Edit.__call__ edit)); simpl;
    [apply IH|done].
Qed.

(** X2. Only the rules that match the colour count: the loop over a list
    gives what the loop over its matching rules gives. *)
Theorem apply_edits_matching `{ColorSpace} (color : models.Color.t)
    (edits : list _Edit.t) (c : okhsl) :
  apply_edits color edits c =
  apply_edits color (filter (fun edit => matches edit color = true) edits) c.
Proof.
  revert c. induction edits as [|edit edits IH]; intros c; [done|].
  destruct (matches edit color) eqn:Hm.
  - rewrite filter_cons_True by done. simpl. rewrite Hm.
    destruct (set c (_Edit.variable edit) (_Edit.__call__ edit)); simpl;
      [apply IH|done].
  - rewrite filter_cons_False by (rewrite Hm; done).
    rewrite apply_edits_skip by done. apply IH.
Qed.

(** X3. When the first rule that matches a colour names a channel the
    colour object does not have, creating the colour fails with the error
    of the channel, whatever the mode of the rule and the rules after it. *)
Theorem create_unknown_channel `{ColorSpace} (color : models.Color.t)
    (before after : list _Edit.t) (edit : _Edit.t) (c : okhsl) :
  parse (models.Color.hex color) = Some c ->
  Forall (fun e => matches e color = false) before ->
  matches edit color = true ->
  channel c (_Edit.variable edit) = None ->
  _Colors.create color (before ++ edit :: after)
    = Raise (ChannelError (_Edit.variable edit)).
Proof.
  intros Hparse Hbefore Hm Hch. unfold _Colors.create. rewrite Hparse. simpl.
  rewrite apply_edits_concat, (apply_edits_no_match color before c Hbefore).
  simpl. rewrite Hm. unfold set. by rewrite Hch.
Qed.

Lemma create_unknown_channel_witness :
  @_Colors.create fixture.space
    (models.Color.mk "Blue" "blue" true "#89b4fa")
    [_Edit.mk "l" 0 "value" (Some "red") None;
     _Edit.mk "chroma" 2 "scale" None (Some true);
     _Edit.mk "l" 0 "value" None (Some true)]
  = Raise (ChannelError "chroma").
Proof.
  apply (@create_unknown_channel fixture.space
           (models.Color.mk "Blue" "blue" true "#89b4fa")
           [_Edit.mk "l" 0 "value" (Some "red") None]
           [_Edit.mk "l" 0 "value" None (Some true)]
           (_Edit.mk "chroma" 2 "scale" None (Some true))
           (fixture.mk "#89b4fa" 0 0 0.5)).
  - reflexivity.
  - repeat constructor.
  - reflexivity.
  - reflexivity.
Defined.

(** ** Creating a flavor *)

Lemma rmap_first_raise {A B} (f : A -> result B) (pre post : list A)
    (x : A) (e : exn) :
  Forall (fun a => exists b, f a = Ok b) pre -> f x = Raise e ->
  rmap f (pre ++ x :: post) = Raise e.
Proof.
  intros Hpre Hx. induction Hpre as [|a pre [b Hb] _ IH]; simpl.
  - by rewrite Hx.
  - rewrite Hb. simpl. by rewrite IH.
Qed.

Lemma rmap_all_Ok {A B} (f : A -> result B) (l : list A) :
  Forall (fun a => exists b, f a = Ok b) l -> exists bs, rmap f l = Ok bs.
Proof.
  induction 1 as [|a l [b Hb] _ [bs IH]]; simpl; [by eexists|].
  rewrite Hb, IH. simpl. by eexists.
Qed.

Lemma create_Ok_name `{ColorSpace} (color : models.Color.t)
    (edits : list _Edit.t) (r : _Colors.t) :
  _Colors.create color edits = Ok r ->
  _Colors.name r = models.Color.identifier color.
Proof.
  unfold _Colors.create.
  destruct (parse (models.Color.hex color)) as [c|]; simpl; [|discriminate].
  destruct (apply_edits color edits c) as [c'|]; simpl; [|discriminate].
  by intros [= <-].
Qed.

(** The fields of a created flavor. *)
Lemma flavor_create_fields `{ColorSpace} (flavor : models.Flavor.t)
    (edits : list _Edit.t) (f : _Flavor.t) :
  _Flavor.create flavor edits = Ok f ->
  _Flavor.name f = models.Flavor.identifier flavor /\
  map _Colors.name (_Flavor.colors f)
    = map models.Color.identifier (models.Flavor.colors flavor) /\
  map _Colors.original (_Flavor.colors f)
    = map models.Color.hex (models.Flavor.colors flavor).
Proof.
  intros Hf. pose proof (flavor_create_Ok_inv flavor edits f Hf) as Hall.
  split.
  - unfold _Flavor.create in Hf.
    destruct (rmap _ (models.Flavor.colors flavor)); simpl in Hf;
      [|discriminate].
    by injection Hf as <-.
  - induction Hall as [|color r colors rs Hr _ [IH1 IH2]]; [done|].
    simpl. rewrite IH1, IH2.
    rewrite (create_Ok_name color edits r Hr).
    by apply create_Ok_inv in Hr as [-> _].
Qed.

(** X4. A created flavor carries the identifier of the dataset's flavor and
    one colour for each colour of the dataset, in the same order, named by
    the colour's identifier and with the dataset's hex value as original. *)
Theorem flavor_create_shape `{ColorSpace} (flavor : models.Flavor.t)
    (edits : list _Edit.t) (f : _Flavor.t) :
  _Flavor.create flavor edits = Ok f ->
  _Flavor.name f = models.Flavor.identifier flavor /\
  map _Colors.name (_Flavor.colors f)
    = map models.Color.identifier (models.Flavor.colors flavor) /\
  map _Colors.original (_Flavor.colors f)
    = map models.Color.hex (models.Flavor.colors flavor).
Proof.
  intros Hf. pose proof (flavor_create_Ok_inv flavor edits f Hf) as Hall.
  split.
  - unfold _Flavor.create in Hf.
    destruct (rmap _ (models.Flavor.colors flavor)); simpl in Hf;
      [|discriminate].
    by injection Hf as <-.
  - induction Hall as [|color r colors rs Hr _ [IH1 IH2]]; [done|].
    simpl. rewrite IH1, IH2.
    rewrite (create_Ok_name color edits r Hr).
    by apply create_Ok_inv in Hr as [-> _].
Qed.

Lemma flavor_create_shape_witness :
  let flavor := models.Flavor.mk "Mocha" "mocha" true
                  [models.Color.mk "Blue" "blue" true "#89b4fa";
                   models.Color.mk "Base" "base" false "#1e1e2e"] in
  let f := _Flavor.mk "mocha"
             [_Colors.mk "blue" "#89b4fa" "#000000" true;
              _Colors.mk "base" "#1e1e2e" "#1e1e2e" false] in
  _Flavor.name f = "mocha" /\
  map _Colors.name (_Flavor.colors f) = ["blue"; "base"] /\
  map _Colors.original (_Flavor.colors f) = ["#89b4fa"; "#1e1e2e"].
Proof.
  apply (@flavor_create_shape fixture.space
           (models.Flavor.mk "Mocha" "mocha" true
              [models.Color.mk "Blue" "blue" true "#89b4fa";
               models.Color.mk "Base" "base" false "#1e1e2e"])
           [_Edit.mk "l" 0 "value" None (Some true)]).
  reflexivity.
Defined.

(** X5. Creating a flavor fails with the error of the first colour that
    cannot be created; no flavor is returned with the colours before it. *)
Theorem flavor_create_first_error `{ColorSpace} (flavor : models.Flavor.t)
    (edits : list _Edit.t) (before after : list models.Color.t)
    (color : models.Color.t) (e : exn) :
  models.Flavor.colors flavor = before ++ color :: after ->
  Forall (fun c => exists r, _Colors.create c edits = Ok r) before ->
  _Colors.create color edits = Raise e ->
  _Flavor.create flavor edits = Raise e.
Proof.
  intros Hsplit Hbefore Hraise. unfold _Flavor.create. rewrite Hsplit.
  by rewrite (rmap_first_raise _ before after color e Hbefore Hraise).
Qed.

Lemma flavor_create_first_error_witness :
  @_Flavor.create fixture.space
    (models.Flavor.mk "Mocha" "mocha" true
       [models.Color.mk "Base" "base" false "#1e1e2e";
        models.Color.mk "Blue" "blue" true "#89b4fa";
        models.Color.mk "Red" "red" true "#f38ba8"])
    [_Edit.mk "chroma" 0 "value" None (Some true)]
  = Raise (ChannelError "chroma").
Proof.
  apply (@flavor_create_first_error fixture.space _ _
           [models.Color.mk "Base" "base" false "#1e1e2e"]
           [models.Color.mk "Red" "red" true "#f38ba8"]
           (models.Color.mk "Blue" "blue" true "#89b4fa")).
  - reflexivity.
  - repeat constructor. eexists. reflexivity.
  - reflexivity.
Defined.

(** ** The views of a flavor *)

Lemma dict_of_snoc {V} (items : list (string * V)) (k : string) (v : V) :
  dict_of (items ++ [(k, v)]) = dict_set k v (dict_of items).
Proof. unfold dict_of. by rewrite fold_left_app. Qed.

Lemma dict_set_fresh {V} (k : string) (v : V) (d : pydict V) :
  k ∉ dict_keys d -> dict_set k v d = d ++ [(k, v)].
Proof.
  induction d as [|[k0 v0] d IH]; simpl; [done|].
  intros [Hne Hk]%not_elem_of_cons.
  destruct (String.eqb_spec k0 k) as [->|_]; [done|]. by rewrite IH.
Qed.

(** Pairs with distinct keys make the dictionary that lists them. *)
Lemma dict_of_distinct {V} (items : list (string * V)) :
  NoDup (map fst items) -> dict_of items = items.
Proof.
  induction items as [|[k v] items IH] using rev_ind; [done|].
  rewrite map_app. simpl. intros (Hnd & Hk & _)%NoDup_app.
  rewrite dict_of_snoc, IH by done. apply dict_set_fresh.
  intros Hin. apply (Hk k Hin). apply list_elem_of_here.
Qed.

(** X6. When the identifiers of the colours of a flavor are distinct, the
    views [original] and [custom] list the colours in the order of the
    dataset: the first maps each identifier to the dataset's hex value, the
    second to the custom value created for it. *)
Theorem flavor_views_distinct `{ColorSpace} (flavor : models.Flavor.t)
    (edits : list _Edit.t) (f : _Flavor.t) :
  _Flavor.create flavor edits = Ok f ->
  NoDup (map models.Color.identifier (models.Flavor.colors flavor)) ->
  _Flavor.original f
    = map (fun c => (models.Color.identifier c, models.Color.hex c))
        (models.Flavor.colors flavor) /\
  _Flavor.custom f
    = map (fun r => (_Colors.name r, _Colors.custom r)) (_Flavor.colors f) /\
  dict_keys (_Flavor.custom f)
    = map models.Color.identifier (models.Flavor.colors flavor).
Proof.
  intros Hf Hnd.
  destruct (flavor_create_fields flavor edits f Hf) as (_ & Hnames & Horig).
  assert (_Flavor.custom f
          = map (fun r => (_Colors.name r, _Colors.custom r)) (_Flavor.colors f))
    as Hcustom.
  { unfold _Flavor.custom. apply dict_of_distinct.
    rewrite map_map. rewrite <- Hnames in Hnd. exact Hnd. }
  split_and!.
  - unfold _Flavor.original. rewrite dict_of_distinct.
    + clear Hnd Hcustom Hf. revert Hnames Horig.
      generalize (models.Flavor.colors flavor).
      induction (_Flavor.colors f) as [|r rs IH]; intros [|c cs]; simpl;
        try done.
      intros [= Hn Hns] [= Ho Hos]. rewrite Hn, Ho. f_equal. by apply IH.
    + rewrite map_map. rewrite <- Hnames in Hnd. exact Hnd.
  - exact Hcustom.
  - rewrite Hcustom. unfold dict_keys. rewrite map_map. exact Hnames.
Qed.

Lemma flavor_views_distinct_witness :
  let f := _Flavor.mk "mocha"
             [_Colors.mk "blue" "#89b4fa" "#000000" true;
              _Colors.mk "base" "#1e1e2e" "#1e1e2e" false] in
  _Flavor.original f = [("blue", "#89b4fa"); ("base", "#1e1e2e")] /\
  _Flavor.custom f = [("blue", "#000000"); ("base", "#1e1e2e")] /\
  dict_keys (_Flavor.custom f) = ["blue"; "base"].
Proof.
  apply (@flavor_views_distinct fixture.space
           (models.Flavor.mk "Mocha" "mocha" true
              [models.Color.mk "Blue" "blue" true "#89b4fa";
               models.Color.mk "Base" "base" false "#1e1e2e"])
           [_Edit.mk "l" 0 "value" None (Some true)]).
  - reflexivity.
  - simpl. repeat constructor; set_solver.
Defined.

(** ** The order of the substitutions *)

(** The keys of a dictionary built from pairs come in the order in which
    each key first appears among the pairs. *)
Lemma dict_of_keys_order {V} (items : list (string * V)) :
  dict_keys (dict_of items) = rev (remove_dups (rev (map fst items))).
Proof.
  induction items as [|[k v] items IH] using rev_ind; [done|].
  rewrite dict_of_snoc, dict_keys_set, IH, map_app, rev_app_distr. simpl.
  rewrite <- IH.
  destruct (decide_rel elem_of k (rev (map fst items))) as [Hin|Hin];
    rewrite elem_of_rev in Hin.
  - rewrite bool_decide_eq_true_2 by by apply dict_of_keys.
    done.
  - rewrite bool_decide_eq_false_2 by by rewrite dict_of_keys.
    simpl. by rewrite IH.
Qed.

(** ** Decoded rules *)

Lemma as_literal_Ok (allowed : list string) (v : toml) (s : string) :
  as_literal allowed v = Ok s -> v = TString s /\ s ∈ allowed.
Proof.
  destruct v as [s'| | | | | |]; simpl; try discriminate.
  destruct (existsb (String.eqb s') allowed) eqn:Hex; [|discriminate].
  intros [= <-]. split; [done|].
  apply existsb_exists in Hex as (x & Hin & ->%String.eqb_eq).
  by apply list_elem_of_In.
Qed.

Lemma convert_edit_Ok_inv (fields : list (string * toml)) (edit : _Edit.t) :
  convert_edit (TTable fields) = Ok edit ->
  valid_mode edit /\
  (dict_get "type" fields = None -> _Edit.type edit = "value") /\
  (dict_get "name" fields = None -> _Edit.name edit = None) /\
  (forall b, dict_get "accent" fields = Some (TBoolean b) ->
             _Edit.accent edit = Some b) /\
  (dict_get "accent" fields = None -> _Edit.accent edit = None).
Proof.
  simpl.
  destruct (required as_str _ fields) as [variable|]; simpl; [|discriminate].
  destruct (required as_float _ fields) as [value|]; simpl; [|discriminate].
  destruct (optional (as_literal _) _ _ fields) as [type|] eqn:Hty; simpl;
    [|discriminate].
  destruct (optional (as_some as_str) _ _ fields) as [name|] eqn:Hname; simpl;
    [|discriminate].
  destruct (optional (as_some as_bool) _ _ fields) as [accent|] eqn:Hacc;
    simpl; [|discriminate].
  intros [= <-]. unfold valid_mode. simpl.
  unfold optional in Hty, Hname, Hacc. split_and!.
  - destruct (dict_get "type" fields) as [v|].
    + apply as_literal_Ok in Hty as [_ Hin].
      apply elem_of_cons in Hin as [->|Hin]; [by left|].
      apply list_elem_of_singleton in Hin as ->. by right.
    + injection Hty as <-. by left.
  - intros Hnone. rewrite Hnone in Hty. by injection Hty as <-.
  - intros Hnone. rewrite Hnone in Hname. by injection Hname as <-.
  - intros b Hb. rewrite Hb in Hacc. by injection Hacc as <-.
  - intros Hnone. rewrite Hnone in Hacc. by injection Hacc as <-.
Qed.

(** X8. What a decoded rule matches is read off the keys of its table:
    without the key [name], a rule with [accent = b] matches exactly the
    colours whose accent flag is [b]; without both keys it matches no
    colour, so that a rule written with no filter changes nothing. *)
Theorem decoded_rule_matches (fields : list (string * toml))
    (edit : _Edit.t) (color : models.Color.t) :
  convert_edit (TTable fields) = Ok edit ->
  dict_get "name" fields = None ->
  (forall b, dict_get "accent" fields = Some (TBoolean b) ->
     matches edit color = Bool.eqb b (models.Color.accent color)) /\
  (dict_get "accent" fields = None -> matches edit color = false).
Proof.
  intros (_ & _ & Hname & Hacc & Hnoacc)%convert_edit_Ok_inv Hnone.
  unfold matches. rewrite (Hname Hnone). simpl. split.
  - intros b Hb. by rewrite (Hacc b Hb).
  - intros Hb. by rewrite (Hnoacc Hb).
Qed.

Lemma decoded_rule_matches_witness :
  let blue := models.Color.mk "Blue" "blue" true "#89b4fa" in
  let accents := _Edit.mk "l" 0.5 "value" None (Some true) in
  convert_edit (TTable [("variable", TString "l"); ("value", TFloat 0.5);
                        ("accent", TBoolean true)]) = Ok accents /\
  matches accents blue = true.
Proof.
  split; [reflexivity|].
  destruct (decoded_rule_matches
              [("variable", TString "l"); ("value", TFloat 0.5);
               ("accent", TBoolean true)]
              (_Edit.mk "l" 0.5 "value" None (Some true))
              (models.Color.mk "Blue" "blue" true "#89b4fa")
              eq_refl eq_refl) as [Hacc _].
  exact (Hacc true eq_refl).
Defined.

Lemma convert_edits_Ok_modes (v : toml) (rules : list _Edit.t) :
  convert_edits v = Ok rules -> Forall valid_mode rules.
Proof.
  destruct v as [| | | | |items|]; simpl; try discriminate.
  intros Hall%rmap_Ok_inv.
  induction Hall as [|x rule items rules Hx _ IH]; constructor; [|done].
  destruct x as [| | | | | |fields]; try discriminate.
  by apply convert_edit_Ok_inv in Hx as [? _].
Qed.

Lemma convert_config_Ok_modes (doc : list (string * toml))
    (es : Editor.config) (k : string) (rules : list _Edit.t) :
  convert_config doc = Ok es -> dict_get k es = Some rules ->
  Forall valid_mode rules.
Proof.
  unfold convert_config.
  destruct (rmap _ doc) as [items|] eqn:Hitems; simpl; [|discriminate].
  intros [= <-] (l1 & l2 & -> & _)%dict_of_get_inv.
  apply rmap_Ok_inv in Hitems.
  apply Forall2_app_inv_r in Hitems as (d1 & d2 & _ & Hd2 & _).
  inversion Hd2 as [|[k' v] ? ? ? Hkv _]; subst. simpl in Hkv.
  destruct (convert_edits v) as [rules'|] eqn:Hv; simpl in Hkv; [|discriminate].
  injection Hkv as _ <-. by apply convert_edits_Ok_modes in Hv.
Qed.

Lemma convert_config_validates (doc : list (string * toml)) (e : exn) :
  convert_config doc = Raise e -> e = ValidationError.
Proof.
  unfold convert_config.
  destruct (rmap _ doc) as [items|e'] eqn:Hitems; simpl; [discriminate|].
  intros [= <-]. apply rmap_Raise_inv in Hitems as ([k v] & _ & Hkv).
  simpl in Hkv. destruct (convert_edits v) eqn:Hv; simpl in Hkv;
    [discriminate|].
  injection Hkv as <-. by apply convert_edits_validates in Hv.
Qed.

Lemma call_valid_mode (edit : _Edit.t) (v : float) :
  valid_mode edit -> exists x, _Edit.__call__ edit v = Ok x.
Proof.
  unfold _Edit.__call__. intros [->| ->]; simpl; by eexists.
Qed.

Lemma apply_edits_valid_raise `{ColorSpace} (color : models.Color.t)
    (edits : list _Edit.t) (c : okhsl) (e : exn) :
  Forall valid_mode edits -> apply_edits color edits c = Raise e ->
  exists n, e = ChannelError n.
Proof.
  intros Hvalid. revert c.
  induction Hvalid as [|edit edits Hedit _ IH]; intros c; simpl;
    [discriminate|].
  destruct (matches edit color); [|apply IH].
  unfold set. destruct (channel c (_Edit.variable edit)) as [v|]; simpl.
  - destruct (call_valid_mode edit v Hedit) as [x ->]. simpl. apply IH.
  - intros [= <-]. by eexists.
Qed.

Lemma flavor_create_valid_raise `{ColorSpace} (flavor : models.Flavor.t)
    (edits : list _Edit.t) (e : exn) :
  Forall valid_mode edits -> _Flavor.create flavor edits = Raise e ->
  (exists n, e = ChannelError n) \/ (exists t, e = ColorError t).
Proof.
  intros Hvalid. unfold _Flavor.create.
  destruct (rmap _ (models.Flavor.colors flavor)) as [|e'] eqn:Hcs; simpl;
    [discriminate|].
  intros [= <-]. apply rmap_Raise_inv in Hcs as (color & _ & Hc).
  unfold _Colors.create in Hc.
  destruct (parse (models.Color.hex color)) as [c|]; simpl in Hc.
  - destruct (apply_edits color edits c) as [c'|e''] eqn:Happ; simpl in Hc;
      [discriminate|].
    injection Hc as <-. left. by eapply apply_edits_valid_raise.
  - injection Hc as <-. right. by eexists.
Qed.

(** ** Building the palette *)

Lemma edits_world `{Decoder} (self : Editor.t) (w : world) :
  snd (Editor.edits self w) = record (ReadBytes (Editor.conf self)) w.
Proof.
  unfold Editor.edits, bind, read_bytes, read, lift, raise.
  destruct (files w !! Editor.conf self) as [[content|]|]; simpl; try done.
  by destruct (toml_loads content).
Qed.

Lemma edits_raises `{Decoder} (self : Editor.t) (w w' : world) (e : exn) :
  Editor.edits self w = (Raise e, w') ->
  e = ValidationError \/ e = DecodeError \/
  e = FileNotFoundError (Editor.conf self) \/
  e = IsADirectoryError (Editor.conf self).
Proof.
  unfold Editor.edits, bind, read_bytes, read, lift, raise.
  destruct (files w !! Editor.conf self) as [[content|]|]; simpl.
  - destruct (toml_loads content) as [doc|]; [|intros [= <- _]; auto].
    destruct (convert_config doc) eqn:Hdoc; intros [= <- _].
    left. by apply convert_config_validates in Hdoc.
  - intros [= <- _]. auto.
  - intros [= <- _]. auto.
Qed.

Lemma edits_Ok_modes `{Decoder} (self : Editor.t) (w w' : world)
    (es : Editor.config) (k : string) (rules : list _Edit.t) :
  Editor.edits self w = (Ok es, w') -> dict_get k es = Some rules ->
  Forall valid_mode rules.
Proof.
  unfold Editor.edits, bind, read_bytes, read, lift, raise.
  destruct (files w !! Editor.conf self) as [[content|]|]; simpl;
    try discriminate.
  destruct (toml_loads content) as [doc|]; [|discriminate].
  destruct (convert_config doc) eqn:Hdoc; intros [= <- _].
  by apply (convert_config_Ok_modes doc).
Qed.

(** With the configuration in the cache the loop is a map over the flavors
    followed by the insertions, and it does not touch the files. *)
Lemma palette_loop_cached `{ColorSpace} `{Decoder} (self : Editor.t)
    (es : Editor.config) (flavors : list models.Flavor.t)
    (acc : pydict _Flavor.t) (w : world) :
  Editor.palette_loop self (Some es) flavors acc w =
  (try items := rmap (flavor_entry es) flavors in
   Ok (fold_left (fun d kv => dict_set (fst kv) (snd kv) d) items acc), w).
Proof.
  revert acc. induction flavors as [|flavor rest IH]; intros acc; [done|].
  simpl. unfold bind, lift, ret, flavor_entry. simpl.
  destruct (getitem _ es) as [rules|]; simpl; [|done].
  destruct (_Flavor.create flavor rules) as [f|]; simpl; [|done].
  rewrite IH. fold (flavor_entry es).
  by destruct (rmap (flavor_entry es) rest).
Qed.

(** The palette once the configuration is loaded. *)
Lemma palette_loaded `{ColorSpace} `{Decoder} `{Dataset}
    (self : Editor.t) (w w1 : world) (es : Editor.config) :
  PALETTE <> [] ->
  Editor.edits self w = (Ok es, w1) ->
  Editor.palette self w =
  (try items := rmap (flavor_entry es) PALETTE in Ok (dict_of items),
   record (ReadBytes (Editor.conf self)) w).
Proof.
  intros Hne Hedits.
  pose proof (edits_world self w) as Hw. rewrite Hedits in Hw. simpl in Hw.
  subst w1. unfold Editor.palette.
  destruct PALETTE as [|flavor rest]; [done|].
  pose proof (palette_loop_cached self es (flavor :: rest) []
                (record (ReadBytes (Editor.conf self)) w)) as Hloop.
  simpl in Hloop |- *. unfold bind in Hloop |- *. simpl in Hloop.
  rewrite Hedits. exact Hloop.
Qed.

(** X9. Once the configuration is loaded, and with at least one flavor in
    the dataset, the palette is the dictionary of the flavors' entries:
    each flavor is created with the rules under ["dark"] or ["light"]
    according to its flag, in the order of the dataset, and the first
    failure is the failure of the build. The only access to the files is
    the read of the configuration. *)
Theorem palette_is_dict_of_entries `{ColorSpace} `{Decoder} `{Dataset}
    (self : Editor.t) (w w1 : world) (es : Editor.config) :
  PALETTE <> [] ->
  Editor.edits self w = (Ok es, w1) ->
  Editor.palette self w =
  (try items := rmap (flavor_entry es) PALETTE in Ok (dict_of items),
   record (ReadBytes (Editor.conf self)) w).
Proof.
  intros Hne Hedits.
  pose proof (edits_world self w) as Hw. rewrite Hedits in Hw. simpl in Hw.
  subst w1. unfold Editor.palette.
  destruct PALETTE as [|flavor rest]; [done|].
  pose proof (palette_loop_cached self es (flavor :: rest) []
                (record (ReadBytes (Editor.conf self)) w)) as Hloop.
  simpl in Hloop |- *. unfold bind in Hloop |- *. simpl in Hloop.
  rewrite Hedits. exact Hloop.
Qed.

Lemma palette_is_dict_of_entries_witness :
  let self := Editor.mk "config.toml" in
  let w := mkWorld {[ "config.toml" := File fixture.conf_text ]} [] in
  @Editor.palette fixture.space fixture.decoder fixture.dataset self w
  = (Ok [("mocha",
          _Flavor.mk "mocha"
            [_Colors.mk "blue" "#89b4fa" "#000000" true;
             _Colors.mk "base" "#1e1e2e" "#1e1e2e" false])],
     record (ReadBytes "config.toml") w).
Proof.
  simpl.
  rewrite (@palette_is_dict_of_entries fixture.space fixture.decoder
             fixture.dataset (Editor.mk "config.toml")
             (mkWorld {[ "config.toml" := File fixture.conf_text ]} [])
             (record (ReadBytes "config.toml")
                (mkWorld {[ "config.toml" := File fixture.conf_text ]} []))
             [("light", []);
              ("dark", [_Edit.mk "l" 0 "value" None (Some true)])]).
  - reflexivity.
  - discriminate.
  - reflexivity.
Defined.

(** The world after the palette is built. *)
Lemma palette_world `{ColorSpace} `{Decoder} `{Dataset}
    (self : Editor.t) (w : world) :
  snd (Editor.palette self w) =
  match PALETTE with
  | [] => w
  | _ => record (ReadBytes (Editor.conf self)) w
  end.
Proof.
  destruct PALETTE as [|flavor rest] eqn:Hpal; [unfold Editor.palette; by rewrite Hpal|].
  destruct (Editor.edits self w) as [[es|e] w1] eqn:Hedits.
  - rewrite (palette_loaded self w w1 es); [done| |done].
    by rewrite Hpal.
  - pose proof (edits_world self w) as Hw. rewrite Hedits in Hw.
    simpl in Hw. subst w1. unfold Editor.palette. rewrite Hpal. simpl.
    unfold bind. by rewrite Hedits.
Qed.

(** X10. Building the palette reads the configuration file once, however
    many flavors there are and whether the build succeeds or fails, and
    leaves every file as it was; with no flavor the file is not read. *)
Theorem palette_reads_config_once `{ColorSpace} `{Decoder} `{Dataset}
    (self : Editor.t) (w : world) :
  snd (Editor.palette self w) =
  match PALETTE with
  | [] => w
  | _ => record (ReadBytes (Editor.conf self)) w
  end.
Proof.
  destruct PALETTE as [|flavor rest] eqn:Hpal; [unfold Editor.palette; by rewrite Hpal|].
  destruct (Editor.edits self w) as [[es|e] w1] eqn:Hedits.
  - rewrite (palette_loaded self w w1 es); [done| |done].
    by rewrite Hpal.
  - pose proof (edits_world self w) as Hw. rewrite Hedits in Hw.
    simpl in Hw. subst w1. unfold Editor.palette. rewrite Hpal. simpl.
    unfold bind. by rewrite Hedits.
Qed.

(** X11. When the configuration lacks the key a flavor asks for (["dark"]
    for a dark flavor, ["light"] for the others) and the flavors before it
    are built, the build fails with [KeyError] for that key; a key no
    flavor asks for may be missing. *)
Theorem palette_missing_key `{ColorSpace} `{Decoder} `{Dataset}
    (self : Editor.t) (w w1 : world) (es : Editor.config)
    (before after : list models.Flavor.t) (flavor : models.Flavor.t) :
  Editor.edits self w = (Ok es, w1) ->
  PALETTE = before ++ flavor :: after ->
  Forall (fun f => exists entry, flavor_entry es f = Ok entry) before ->
  dict_get (if models.Flavor.dark flavor then "dark" else "light") es = None ->
  Editor.palette self w =
  (Raise (KeyError (if models.Flavor.dark flavor then "dark" else "light")),
   record (ReadBytes (Editor.conf self)) w).
Proof.
  intros Hedits Hpal Hbefore Hkey.
  rewrite (palette_loaded self w w1 es); [| |done].
  - rewrite Hpal.
    rewrite (rmap_first_raise _ before after flavor
               (KeyError (if models.Flavor.dark flavor
                          then "dark" else "light"))); [done|done|].
    unfold flavor_entry, getitem. by rewrite Hkey.
  - rewrite Hpal. by destruct before.
Qed.

Lemma palette_missing_key_witness :
  let self := Editor.mk "config.toml" in
  let w := mkWorld {[ "config.toml" := File "dark = []" ]} [] in
  let latte := models.Flavor.mk "Latte" "latte" false [] in
  @Editor.palette fixture.space
    {| toml_loads := fun text =>
         if String.eqb text "dark = []" then Some [("dark", TArray [])]
         else None |}
    {| PALETTE := [models.Flavor.mk "Mocha" "mocha" true []; latte] |} self w
  = (Raise (KeyError "light"), record (ReadBytes "config.toml") w).
Proof.
  apply (@palette_missing_key fixture.space
           {| toml_loads := fun text =>
                if String.eqb text "dark = []" then Some [("dark", TArray [])]
                else None |}
           {| PALETTE := [models.Flavor.mk "Mocha" "mocha" true [];
                          models.Flavor.mk "Latte" "latte" false []] |}
           (Editor.mk "config.toml")
           (mkWorld {[ "config.toml" := File "dark = []" ]} [])
           (record (ReadBytes "config.toml")
              (mkWorld {[ "config.toml" := File "dark = []" ]} []))
           [("dark", [])]
           [models.Flavor.mk "Mocha" "mocha" true []] []
           (models.Flavor.mk "Latte" "latte" false [])).
  - reflexivity.
  - reflexivity.
  - repeat constructor. eexists. reflexivity.
  - reflexivity.
Defined.

(** X12. The palette build never fails with the [ValueError] of a rule's
    mode: the rules come from the decoder, which admits the two modes
    only, so the last case of [_Edit.__call__] is not reached. *)
Theorem palette_never_mode_error `{ColorSpace} `{Decoder} `{Dataset}
    (self : Editor.t) (w : world) (m : string) :
  fst (Editor.palette self w) <> Raise (ValueError m).
Proof.
  destruct PALETTE as [|flavor rest] eqn:Hpal.
  { unfold Editor.palette. by rewrite Hpal. }
  destruct (Editor.edits self w) as [[es|e] w1] eqn:Hedits.
  - rewrite (palette_loaded self w w1 es); [| |done].
    2: by rewrite Hpal.
    simpl. destruct (rmap (flavor_entry es) PALETTE) as [items|e] eqn:Hitems;
      simpl; [done|].
    intros [= ->]. apply rmap_Raise_inv in Hitems as (f & _ & Hf).
    unfold flavor_entry, getitem in Hf.
    destruct (dict_get _ es) as [rules|] eqn:Hrules; simpl in Hf;
      [|discriminate].
    destruct (_Flavor.create f rules) as [|e] eqn:Hcreate; simpl in Hf;
      [discriminate|].
    injection Hf as ->.
    apply flavor_create_valid_raise in Hcreate as [[n [=]]|[t [=]]].
    by eapply edits_Ok_modes.
  - unfold Editor.palette. rewrite Hpal. simpl. unfold bind.
    rewrite Hedits. simpl. intros [= ->].
    apply edits_raises in Hedits as [|[|[|]]]; discriminate.
Qed.

(** ** The substitution command and the files *)

Lemma palette_files `{ColorSpace} `{Decoder} `{Dataset} (self : Editor.t)
    (w : world) :
  files (snd (Editor.palette self w)) = files w.
Proof. rewrite palette_world. by destruct PALETTE. Qed.

(** The outcomes of the command: a failure with the files as they were, or
    a success with the destination added, after the palette is built and
    the source read. *)
Lemma replace_call_outcome `{ColorSpace} `{Decoder} `{Dataset} `{Pathlib}
    `{Locale} (self : Replace.t) (w : world) :
  (exists e, fst (Replace.__call__ self w) = Raise e /\
             files (snd (Replace.__call__ self w)) = files w) \/
  (exists d data palette w2,
     Replace.resolve self = Ok d /\
     files w !! d = None /\
     files w !! Replace.src self = Some (File data) /\
     decodable data = true /\
     Editor.palette (Editor.mk (Replace.conf self)) (record (Exists d) w)
       = (Ok palette, w2) /\
     Replace.__call__ self w =
     (Ok tt,
      {| files :=
           <[d := File (substitute
                          (dict_of (concat (map _Flavor.dict
                                              (dict_values palette))))
                          (universal_newlines false data))]> (files w);
         trace :=
           trace w2 ++
           [ReadText (Replace.src self);
            WriteText d
              (substitute
                 (dict_of (concat (map _Flavor.dict (dict_values palette))))
                 (universal_newlines false data))] |})).
Proof.
  unfold Replace.__call__, Replace._dst, Replace._colors, bind, lift,
    path_exists, raise, ret.
  destruct (Replace.resolve self) as [d|e]; [|left; by eexists].
  case_bool_decide as Hex; [left; by eexists|].
  assert (files w !! d = None) as Hfree.
  { destruct (files w !! d) eqn:Hd; [|done]. exfalso. apply Hex. by eexists. }
  pose proof (palette_files (Editor.mk (Replace.conf self))
                (record (Exists d) w)) as Hfiles.
  destruct (Editor.palette (Editor.mk (Replace.conf self))
              (record (Exists d) w)) as [[palette|e] w2] eqn:Hpal;
    simpl in Hfiles; [|left; by eexists].
  unfold read_text, read, bind, raise, ret, record. simpl.
  rewrite Hfiles. simpl.
  destruct (files w !! Replace.src self) as [[data|]|] eqn:Hsrc; simpl;
    [|left; by eexists..].
  destruct (decodable data) eqn:Hdec; simpl; [|left; by eexists].
  unfold write_text. simpl. rewrite Hfree.
  right. exists d, data, palette, w2. unfold record in Hpal.
  split_and!; try done. by rewrite <- app_assoc.
Qed.

(** X13. When the substitution command fails, for whatever reason, the
    files are as they were before the command: no destination is left. *)
Theorem replace_failure_writes_nothing `{ColorSpace} `{Decoder} `{Dataset}
    `{Pathlib} `{Locale} (self : Replace.t) (w : world) (e : exn) :
  fst (Replace.__call__ self w) = Raise e ->
  files (snd (Replace.__call__ self w)) = files w.
Proof.
  intros Hfail.
  destruct (replace_call_outcome self w)
    as [(e' & _ & Hfiles)|(d & data & palette & w2 & _ & _ & _ & _ & _ & Hok)];
    [done|].
  rewrite Hok in Hfail. discriminate.
Qed.

Lemma replace_failure_writes_nothing_witness :
  let self := Replace.mk "theme.css" None "config.toml" in
  let w := mkWorld {[ "config.toml" := File fixture.conf_text ]} [] in
  files (snd (@Replace.__call__ fixture.space fixture.decoder fixture.dataset
                fixture.pathlib fixture.locale self w)) = files w.
Proof.
  apply (@replace_failure_writes_nothing fixture.space fixture.decoder
           fixture.dataset fixture.pathlib fixture.locale
           (Replace.mk "theme.css" None "config.toml")
           (mkWorld {[ "config.toml" := File fixture.conf_text ]} [])
           (FileNotFoundError "theme.css")).
  vm_compute. reflexivity.
Defined.

(** X14. When the substitution command succeeds, the destination did not
    exist, the source was a file whose bytes decode, the palette was built,
    and the files afterwards are the files before with the destination
    added, holding the text of the source, as read in text mode (line ends
    translated), after the substitutions of the merged diffs. *)
Theorem replace_success_writes_destination `{ColorSpace} `{Decoder}
    `{Dataset} `{Pathlib} `{Locale} (self : Replace.t) (w : world)
    (u : unit) :
  fst (Replace.__call__ self w) = Ok u ->
  exists d data palette,
    Replace.resolve self = Ok d /\
    files w !! d = None /\
    files w !! Replace.src self = Some (File data) /\
    decodable data = true /\
    fst (Editor.palette (Editor.mk (Replace.conf self))
           (record (Exists d) w)) = Ok palette /\
    files (snd (Replace.__call__ self w)) =
    <[d := File (substitute
                   (dict_of (concat (map _Flavor.dict (dict_values palette))))
                   (universal_newlines false data))]> (files w).
Proof.
  intros Hok.
  destruct (replace_call_outcome self w)
    as [(e' & Hfail & _)
       |(d & data & palette & w2 & ? & ? & ? & ? & Hpal & Hcall)];
    [congruence|].
  exists d, data, palette. split_and!; try done.
  - by rewrite Hpal.
  - by rewrite Hcall.
Qed.

Lemma replace_success_writes_destination_witness :
  let self := Replace.mk "theme.css" None "config.toml" in
  let w := mkWorld {[ "theme.css" := File "a: #89b4fa;
b: #1e1e2e;
";
                      "config.toml" := File fixture.conf_text ]} [] in
  exists d data palette,
    @Replace.resolve fixture.pathlib self = Ok d /\
    files w !! d = None /\
    files w !! "theme.css" = Some (File data) /\
    fixture.all_ascii data = true /\
    fst (@Editor.palette fixture.space fixture.decoder fixture.dataset
           (Editor.mk "config.toml") (record (Exists d) w)) = Ok palette /\
    files (snd (@Replace.__call__ fixture.space fixture.decoder
                  fixture.dataset fixture.pathlib fixture.locale self w)) =
    <[d := File (substitute
                   (dict_of (concat (map _Flavor.dict (dict_values palette))))
                   (universal_newlines false data))]> (files w).
Proof.
  apply (@replace_success_writes_destination fixture.space fixture.decoder
           fixture.dataset fixture.pathlib fixture.locale
           (Replace.mk "theme.css" None "config.toml")
           (mkWorld {[ "theme.css" := File "a: #89b4fa;
b: #1e1e2e;
";
                       "config.toml" := File fixture.conf_text ]} [])
           tt).
  vm_compute. reflexivity.
Defined.

(** X15. The substitution command never changes a file that exists: the
    source, the configuration and every other file hold after the command,
    failed or not, what they held before. *)
Theorem replace_keeps_existing_files `{ColorSpace} `{Decoder} `{Dataset}
    `{Pathlib} `{Locale} (self : Replace.t) (w : world) (p : string)
    (x : node) :
  files w !! p = Some x ->
  files (snd (Replace.__call__ self w)) !! p = Some x.
Proof.
  intros Hp.
  destruct (replace_call_outcome self w)
    as [(e & _ & ->)
       |(d & data & palette & w2 & _ & Hfree & _ & _ & _ & ->)];
    [done|].
  simpl. rewrite lookup_insert_ne; [done|]. intros ->. congruence.
Qed.

Lemma replace_keeps_existing_files_witness :
  let self := Replace.mk "theme.css" None "config.toml" in
  let w := mkWorld {[ "theme.css" := File "#89b4fa";
                      "config.toml" := File fixture.conf_text ]} [] in
  files (snd (@Replace.__call__ fixture.space fixture.decoder fixture.dataset
                fixture.pathlib fixture.locale self w)) !! "theme.css"
  = Some (File "#89b4fa").
Proof.
  apply (@replace_keeps_existing_files fixture.space fixture.decoder
           fixture.dataset fixture.pathlib fixture.locale
           (Replace.mk "theme.css" None "config.toml")
           (mkWorld {[ "theme.css" := File "#89b4fa";
                       "config.toml" := File fixture.conf_text ]} [])).
  reflexivity.
Defined.

(** ** [str.replace] and the substitution loop *)

Lemma append_nil_l (s : string) : "" +:+ s = s.
Proof. reflexivity. Qed.

Lemma append_cons (ch : Ascii.ascii) (s t : string) :
  String ch s +:+ t = String ch (s +:+ t).
Proof. reflexivity. Qed.

Lemma prefix_append (old rest : string) : String.prefix old (old +:+ rest) = true.
Proof.
  induction old as [|ch old IH]; [by destruct rest|].
  rewrite append_cons. simpl. by destruct (Ascii.ascii_dec ch ch).
Qed.

Lemma prefix_split (old text : string) :
  String.prefix old text = true -> exists rest, text = old +:+ rest.
Proof.
  revert text. induction old as [|ch old IH]; intros text; simpl.
  - intros _. by exists text.
  - destruct text as [|ch' text]; [by destruct old|]. simpl.
    destruct (Ascii.ascii_dec ch ch') as [<-|]; [|discriminate].
    intros [rest ->]%IH. by exists rest.
Qed.

Lemma replace_scan_skip (old new a text : string) :
  replace_scan old new (String.length a) (a +:+ text)
  = replace_scan old new 0 text.
Proof.
  induction a as [|ch a IH].
  - by destruct text.
  - exact IH.
Qed.

(** X16. [replace] goes through the text from the left: where the text
    starts with [old], it puts [new] and goes on after this occurrence;
    elsewhere it keeps the character and goes on after it. Occurrences
    that overlap one already replaced are not seen. *)
Theorem replace_steps (old new text : string) (ch : Ascii.ascii) :
  old <> "" ->
  replace old new (old +:+ text) = new +:+ replace old new text /\
  (String.prefix old (String ch text) = false ->
   replace old new (String ch text) = String ch (replace old new text)) /\
  replace old new "" = "".
Proof.
  intros Hne. destruct old as [|c old]; [done|]. split_and!.
  - unfold replace. rewrite append_cons.
    change (replace_scan (String c old) new 0 (String c (old +:+ text)))
      with (if String.prefix (String c old) (String c (old +:+ text))
            then new +:+ replace_scan (String c old) new
                           (String.length (String c old) - 1) (old +:+ text)
            else String c (replace_scan (String c old) new 0 (old +:+ text))).
    rewrite <- append_cons, prefix_append.
    replace (String.length (String c old) - 1) with (String.length old)
      by (simpl; lia).
    by rewrite replace_scan_skip.
  - intros Hpre. unfold replace.
    change (replace_scan (String c old) new 0 (String ch text))
      with (if String.prefix (String c old) (String ch text)
            then new +:+ replace_scan (String c old) new
                           (String.length (String c old) - 1) text
            else String ch (replace_scan (String c old) new 0 text)).
    by rewrite Hpre.
  - reflexivity.
Qed.

Lemma replace_steps_witness :
  replace "aa" "b" "aaa" = "ba" /\
  replace "aa" "b" "caa" = "cb".
Proof.
  destruct (replace_steps "aa" "b" "a" (Ascii.ascii_of_nat 99))
    as (Hhead & _ & _); [done|].
  destruct (replace_steps "aa" "b" "aa" (Ascii.ascii_of_nat 99))
    as (_ & Hskip & _); [done|].
  split.
  - exact Hhead.
  - exact (Hskip eq_refl).
Defined.

(** Refutes [occurs old text] for a given [old] and a given [text], by
    trying every position. *)
Ltac refute_occurs :=
  let a := fresh "a" in
  let b := fresh "b" in
  let Heq := fresh "Heq" in
  intros (a & b & Heq);
  repeat (destruct a as [|? a];
          [vm_compute in Heq; discriminate|];
          rewrite append_cons in Heq; injection Heq as _ Heq);
  destruct a as [|? a];
  [vm_compute in Heq; discriminate|rewrite append_cons in Heq; discriminate].

Lemma occurs_tail (old text : string) (ch : Ascii.ascii) :
  occurs old text -> occurs old (String ch text).
Proof. intros (a & b & ->). by exists (String ch a), b. Qed.

(** X17. A text in which [old] does not occur is returned as it is; the
    substitution loop returns a text as it is when none of the originals
    occurs in it. *)
Theorem replace_absent (old new text : string) (colors : pydict string) :
  (~ occurs old text -> replace old new text = text) /\
  (Forall (fun kv => ~ occurs (fst kv) text) colors ->
   substitute colors text = text).
Proof.
  assert (forall old new text,
            ~ occurs old text -> replace old new text = text) as Hone.
  { clear. intros old new text Hno. destruct old as [|c old].
    { exfalso. apply Hno. by exists "", text. }
    unfold replace. induction text as [|ch text IH]; [done|].
    change (replace_scan (String c old) new 0 (String ch text))
      with (if String.prefix (String c old) (String ch text)
            then new +:+ replace_scan (String c old) new
                           (String.length (String c old) - 1) text
            else String ch (replace_scan (String c old) new 0 text)).
    destruct (String.prefix (String c old) (String ch text)) eqn:Hpre.
    - exfalso. apply prefix_split in Hpre as [rest Hrest].
      apply Hno. exists "", rest. by rewrite append_nil_l.
    - rewrite IH; [done|]. intros Hocc. by apply Hno, occurs_tail. }
  split; [apply Hone|].
  induction 1 as [|[k v] colors Hk _ IH]; [done|].
  rewrite substitute_cons. simpl in Hk. by rewrite Hone.
Qed.

Lemma replace_absent_witness :
  replace "#f00" "#0f0" "a: #ff0;" = "a: #ff0;" /\
  substitute [("#f00", "#0f0"); ("#00f", "#f00")] "a: #ff0;" = "a: #ff0;".
Proof.
  destruct (replace_absent "#f00" "#0f0" "a: #ff0;"
              [("#f00", "#0f0"); ("#00f", "#f00")]) as [Hone Hall].
  split.
  - apply Hone. refute_occurs.
  - apply Hall. repeat constructor; simpl; refute_occurs.
Defined.

Lemma flavor_dict_unchanged (f : _Flavor.t) :
  Forall (fun c => _Colors.changed c = false) (_Flavor.colors f) ->
  _Flavor.dict f = [].
Proof.
  intros Hall. unfold _Flavor.dict, _Flavor.changed_pairs.
  replace (filter (fun c => _Colors.changed c = true) (_Flavor.colors f))
    with (@nil _Colors.t); [done|].
  induction Hall as [|c cs Hc _ IH]; [done|].
  rewrite filter_cons_False by (rewrite Hc; done). exact IH.
Qed.

(** When no colour of any flavor is changed, the merged dictionary is
    empty. *)
Lemma unchanged_palette_merged (palette : pydict _Flavor.t) :
  Forall (fun f => Forall (fun c => _Colors.changed c = false)
                     (_Flavor.colors f)) (dict_values palette) ->
  dict_of (concat (map _Flavor.dict (dict_values palette))) = [].
Proof.
  intros Hall.
  assert (concat (map _Flavor.dict (dict_values palette)) = []) as ->.
  { induction Hall as [|f fs Hf _ IH]; [done|].
    simpl. by rewrite (flavor_dict_unchanged f Hf), IH. }
  done.
Qed.

(** A text without carriage return is read as it is. *)
Lemma universal_newlines_no_cr (data : string) :
  ~ occurs (String CR "") data -> universal_newlines false data = data.
Proof.
  induction data as [|ch data IH]; [done|]. intros Hno. simpl.
  destruct (Ascii.eqb_spec ch CR) as [->|_].
  - exfalso. apply Hno. by exists "", data.
  - rewrite andb_false_r. f_equal. apply IH.
    intros Hocc. by apply Hno, occurs_tail.
Qed.

Lemma length_append_le (a rest : string) :
  String.length rest <= String.length (a +:+ rest).
Proof.
  induction a as [|ch a IH]; [done|].
  rewrite append_cons. simpl. lia.
Qed.

(** Replacing a string by itself returns the text as it is. *)
Lemma replace_same (old text : string) : replace old old text = text.
Proof.
  destruct old as [|c old].
  { simpl. induction text as [|ch text IH]; [done|].
    simpl. rewrite append_nil_l. by rewrite IH. }
  unfold replace.
  remember (String.length text) as n eqn:Hn. revert text Hn.
  induction n as [n IH] using lt_wf_ind. intros text Hn.
  destruct text as [|ch text]; [done|].
  change (replace_scan (String c old) (String c old) 0 (String ch text))
    with (if String.prefix (String c old) (String ch text)
          then String c old +:+ replace_scan (String c old) (String c old)
                                  (String.length (String c old) - 1) text
          else String ch (replace_scan (String c old) (String c old) 0 text)).
  destruct (String.prefix (String c old) (String ch text)) eqn:Hpre.
  - apply prefix_split in Hpre as [rest Hrest].
    rewrite append_cons in Hrest. injection Hrest as -> ->.
    replace (String.length (String c old) - 1) with (String.length old)
      by (simpl; lia).
    rewrite replace_scan_skip, append_cons. f_equal. f_equal.
    apply (IH (String.length rest)); [|done].
    subst n. pose proof (length_append_le old rest). simpl. lia.
  - f_equal. apply (IH (String.length text)); [|done]. subst n. simpl. lia.
Qed.

(** ** The default command *)

Lemma write_text_file (p text : string) (w : world) :
  files w !! p <> Some Dir ->
  write_text p text w = (Ok tt, written w [(p, text)]).
Proof.
  intros Hp. unfold write_text.
  by destruct (files w !! p) as [[content|]|].
Qed.

Lemma written_app (w : world) (l1 l2 : list (string * string)) :
  written w (l1 ++ l2) = written (written w l1) l2.
Proof. unfold written. by rewrite fold_left_app. Qed.

Lemma written_no_dir (w : world) (outputs : list (string * string))
    (p : string) :
  files w !! p <> Some Dir -> files (written w outputs) !! p <> Some Dir.
Proof.
  revert w. induction outputs as [|[q text] outputs IH]; intros w Hp; [done|].
  apply IH. simpl. destruct (decide (q = p)) as [->|Hne].
  - by rewrite lookup_insert_eq.
  - by rewrite lookup_insert_ne.
Qed.

Lemma write_outputs `{Writer} (obj : pydict (pydict string)) (path : string)
    (w : world) :
  files w !! with_suffix path ".toml" <> Some Dir ->
  files w !! with_suffix path ".json" <> Some Dir ->
  _write obj path w =
  (Ok tt, written w [(with_suffix path ".toml", toml_encode obj);
                     (with_suffix path ".json",
                      json_format (json_encode obj))]).
Proof.
  intros Htoml Hjson. unfold _write, bind, write_bytes.
  rewrite write_text_file by done.
  rewrite write_text_file by by apply written_no_dir.
  done.
Qed.

(** X19. When the palette cannot be built, the default command fails with
    the error of the build and writes no file: the palette is built before
    the first report is written. *)
Theorem editor_call_build_failure `{ColorSpace} `{Decoder} `{Dataset}
    `{Writer} (self : Editor.t) (w : world) (e : exn) :
  fst (Editor.palette self w) = Raise e ->
  Editor.__call__ self w = (Raise e, snd (Editor.palette self w)) /\
  files (snd (Editor.__call__ self w)) = files w.
Proof.
  intros Hfail. pose proof (palette_files self w) as Hfiles.
  unfold Editor.__call__, bind.
  destruct (Editor.palette self w) as [r w1]. simpl in Hfail, Hfiles.
  subst r. done.
Qed.

Lemma editor_call_build_failure_witness :
  let self := Editor.mk "config.toml" in
  let w := mkWorld {[ "config.toml" := File fixture.add_text;
                      "palette-dict.toml" := File "kept" ]} [] in
  @Editor.__call__ fixture.space fixture.decoder fixture.dataset
    fixture.writer self w
  = (Raise ValidationError, record (ReadBytes "config.toml") w) /\
  files (snd (@Editor.__call__ fixture.space fixture.decoder fixture.dataset
                fixture.writer self w)) = files w.
Proof.
  destruct (@editor_call_build_failure fixture.space fixture.decoder
              fixture.dataset fixture.writer (Editor.mk "config.toml")
              (mkWorld {[ "config.toml" := File fixture.add_text;
                          "palette-dict.toml" := File "kept" ]} [])
              ValidationError) as [Hcall Hfiles].
  - vm_compute. reflexivity.
  - split; [exact Hcall|exact Hfiles].
Defined.

(** X20. When the palette is built and none of the six report paths is a
    directory, the default command succeeds and writes, in this order, the
    TOML and the JSON file of the original view, of the custom view and of
    the diff view; a report that exists is overwritten, unlike the
    destination of the substitution command. *)
Theorem editor_call_writes_reports `{ColorSpace} `{Decoder} `{Dataset}
    `{Writer} (self : Editor.t) (w w1 : world) (p : pydict _Flavor.t) :
  Editor.palette self w = (Ok p, w1) ->
  Forall (fun out => files w !! fst out <> Some Dir) (reports p) ->
  Editor.__call__ self w = (Ok tt, written w1 (reports p)).
Proof.
  intros Hpal Hpaths. pose proof (palette_files self w) as Hfiles.
  rewrite Hpal in Hfiles. simpl in Hfiles. rewrite <- Hfiles in Hpaths.
  unfold reports in Hpaths.
  repeat match goal with
         | Hall : Forall _ (_ :: _) |- _ =>
             apply Forall_cons in Hall as [? Hall]
         end.
  simpl in *.
  unfold Editor.__call__, bind. rewrite Hpal.
  rewrite write_outputs by done.
  rewrite write_outputs by by apply written_no_dir.
  rewrite write_outputs by by do 2 apply written_no_dir.
  unfold reports. by rewrite <- !written_app.
Qed.

Lemma editor_call_writes_reports_witness :
  let self := Editor.mk "config.toml" in
  let w := mkWorld {[ "config.toml" := File fixture.conf_text;
                      "palette-dict.toml" := File "old" ]} [] in
  let out := @Editor.__call__ fixture.space fixture.decoder fixture.dataset
               fixture.writer self w in
  fst out = Ok tt /\
  files (snd out) !! "palette-dict.toml"
    = Some (File "[mocha]#89b4fa=#000000;") /\
  files (snd out) !! "palette-original.json"
    = Some (File "{[mocha]blue=#89b4fa;base=#1e1e2e;}").
Proof.
  intros self w out. subst out.
  pose (p := [("mocha",
               _Flavor.mk "mocha"
                 [_Colors.mk "blue" "#89b4fa" "#000000" true;
                  _Colors.mk "base" "#1e1e2e" "#1e1e2e" false])]).
  rewrite (@editor_call_writes_reports fixture.space fixture.decoder
             fixture.dataset fixture.writer self w
             (record (ReadBytes "config.toml") w) p).
  - vm_compute. repeat split.
  - vm_compute. reflexivity.
  - repeat constructor; vm_compute; discriminate.
Defined.

(** ** The order of the accesses of the substitution command *)

(** X21. A successful substitution makes four accesses to the files, in
    this order: the test that the destination does not exist, the one read
    of the configuration, the read of the source, and the one write, to the
    destination. *)
Theorem replace_success_trace `{ColorSpace} `{Decoder} `{Dataset} `{Pathlib}
    `{Locale} (self : Replace.t) (w : world) (u : unit) :
  fst (Replace.__call__ self w) = Ok u ->
  PALETTE <> [] ->
  exists d text,
    Replace.resolve self = Ok d /\
    trace (snd (Replace.__call__ self w)) =
    trace w ++ [Exists d; ReadBytes (Replace.conf self);
                ReadText (Replace.src self); WriteText d text].
Proof.
  intros Hok Hne.
  destruct (replace_call_outcome self w)
    as [(e' & Hfail & _)
       |(d & data & palette & w2 & Hres & _ & _ & _ & Hpal & Hcall)];
    [congruence|].
  pose proof (palette_world (Editor.mk (Replace.conf self))
                (record (Exists d) w)) as Hw2.
  rewrite Hpal in Hw2. simpl in Hw2.
  eexists d, _. split; [done|]. rewrite Hcall. simpl. rewrite Hw2.
  destruct PALETTE; [done|]. simpl. by rewrite <- !app_assoc.
Qed.

Lemma replace_success_trace_witness :
  let self := Replace.mk "theme.css" (Some "out.css") "config.toml" in
  let w := mkWorld {[ "theme.css" := File "#89b4fa";
                      "config.toml" := File fixture.conf_text ]} [] in
  exists d text,
    @Replace.resolve fixture.pathlib self = Ok d /\
    trace (snd (@Replace.__call__ fixture.space fixture.decoder
                  fixture.dataset fixture.pathlib fixture.locale self w)) =
    trace w ++ [Exists d; ReadBytes "config.toml"; ReadText "theme.css";
                WriteText d text].
Proof.
  apply (@replace_success_trace fixture.space fixture.decoder fixture.dataset
           fixture.pathlib fixture.locale
           (Replace.mk "theme.css" (Some "out.css") "config.toml")
           (mkWorld {[ "theme.css" := File "#89b4fa";
                       "config.toml" := File fixture.conf_text ]} [])
           tt).
  - vm_compute. reflexivity.
  - discriminate.
Defined.

(** ** The substitution command, from the files to the destination *)

Lemma replace_call_success `{ColorSpace} `{Decoder} `{Dataset} `{Pathlib}
    `{Locale} (self : Replace.t) (w : world) (u : unit) :
  fst (Replace.__call__ self w) = Ok u ->
  exists d data palette,
    Replace.resolve self = Ok d /\
    files w !! Replace.src self = Some (File data) /\
    fst (Editor.palette (Editor.mk (Replace.conf self))
           (record (Exists d) w)) = Ok palette /\
    fst (Replace._colors self (record (Exists d) w))
      = Ok (concat (map _Flavor.dict (dict_values palette))) /\
    files (snd (Replace.__call__ self w)) !! d
      = Some (File (substitute
                      (dict_of (concat (map _Flavor.dict
                                          (dict_values palette))))
                      (universal_newlines false data))).
Proof.
  intros Hok.
  destruct (replace_call_outcome self w)
    as [(e' & Hfail & _)
       |(d & data & palette & w2 & ? & ? & ? & ? & Hpal & Hcall)];
    [congruence|].
  exists d, data, palette. split_and!; try done.
  - by rewrite Hpal.
  - unfold Replace._colors, bind. by rewrite Hpal.
  - rewrite Hcall. simpl. by rewrite lookup_insert_eq.
Qed.

Lemma substitute_by_keys (d merged : pydict string) (text : string) :
  (forall k v, (k, v) ∈ d -> dict_get k merged = Some v) ->
  substitute d text =
  fold_left (fun text k => match dict_get k merged with
                           | Some v => replace k v text
                           | None => text
                           end) (dict_keys d) text.
Proof.
  revert text. induction d as [|[k v] d IH]; intros text Hget; [done|].
  rewrite substitute_cons. simpl.
  rewrite (Hget k v) by apply list_elem_of_here.
  apply IH. intros k' v' Hin. apply Hget. by apply list_elem_of_further.
Qed.

(** C2. The substitution loop applies the pairs of the dictionary one after
    the other, each replacement acting on the text the one before
    produced: the loop over no pair returns the text, and the loop over a
    pair followed by others is the loop over the others on the text in
    which the pair's original is replaced. With ["#ff0000"] mapped to
    ["#00ff00"] and then ["#00ff00"] to ["#0000ff"], the text ["#ff0000"]
    becomes ["#0000ff"], not the ["#00ff00"] of a simultaneous replacement.
    The text a successful command writes to the destination is the result
    of this loop over the merged diffs on the text read from the source. *)
Theorem substitute_cascades `{ColorSpace} `{Decoder} `{Dataset} `{Pathlib}
    `{Locale} :
  (forall text, substitute [] text = text) /\
  (forall old new rest text,
     substitute ((old, new) :: rest) text
     = substitute rest (replace old new text)) /\
  (let colors := dict_of [("#ff0000", "#00ff00"); ("#00ff00", "#0000ff")] in
   colors = [("#ff0000", "#00ff00"); ("#00ff00", "#0000ff")] /\
   replace "#ff0000" "#00ff00" "#ff0000" = "#00ff00" /\
   substitute colors "#ff0000" = "#0000ff" /\
   substitute colors "#ff0000" <> "#00ff00") /\
  (forall (self : Replace.t) (w : world) (u : unit),
     fst (Replace.__call__ self w) = Ok u ->
     exists d data palette,
       Replace.resolve self = Ok d /\
       files w !! Replace.src self = Some (File data) /\
       fst (Editor.palette (Editor.mk (Replace.conf self))
              (record (Exists d) w)) = Ok palette /\
       files (snd (Replace.__call__ self w)) !! d
         = Some (File (substitute
                         (dict_of (concat (map _Flavor.dict
                                             (dict_values palette))))
                         (universal_newlines false data)))).
Proof.
  split_and!.
  - reflexivity.
  - reflexivity.
  - repeat split. discriminate.
  - intros self w u Hok.
    destruct (replace_call_success self w u Hok)
      as (d & data & palette & ? & ? & ? & _ & ?).
    by exists d, data, palette.
Qed.

Lemma substitute_cascades_witness :
  let self := Replace.mk "theme.css" (Some "out.css") "config.toml" in
  let w := mkWorld {[ "theme.css" := File "#ff0000";
                      "config.toml" := File fixture.hue_text ]} [] in
  let palette := [("mocha",
                   _Flavor.mk "mocha"
                     [_Colors.mk "red" "#ff0000" "#00ff00" true;
                      _Colors.mk "green" "#00ff00" "#0000ff" true])] in
  fst (@Editor.palette fixture.primaries_space fixture.decoder
         fixture.primaries (Editor.mk "config.toml")
         (record (Exists "out.css") w)) = Ok palette /\
  dict_of (concat (map _Flavor.dict (dict_values palette)))
    = [("#ff0000", "#00ff00"); ("#00ff00", "#0000ff")] /\
  files (snd (@Replace.__call__ fixture.primaries_space fixture.decoder
                fixture.primaries fixture.pathlib fixture.locale self w))
    !! "out.css" = Some (File "#0000ff").
Proof.
  intros self w palette.
  destruct (@substitute_cascades fixture.primaries_space fixture.decoder
              fixture.primaries fixture.pathlib fixture.locale)
    as (_ & _ & _ & Hcall).
  destruct (Hcall self w tt) as (d & data & palette' & Hd & Hdata & Hpal & Hout).
  { vm_compute. reflexivity. }
  injection Hd as <-. injection Hdata as <-.
  assert (palette' = palette) as ->.
  { vm_compute in Hpal. injection Hpal as <-. reflexivity. }
  split_and!.
  - vm_compute. reflexivity.
  - vm_compute. reflexivity.
  - rewrite Hout. vm_compute. reflexivity.
Defined.

(** C10. In a successful run of the command, the generator [_colors]
    yields the pairs of the flavors' diff views in the order of the
    flavors, and the text written to the destination is the loop of
    replacements over the dictionary [merged] made of these pairs: one
    replacement for each pair of [merged]. In [merged] an original that
    several flavors yield keeps the custom value of the last flavor that
    yields it, the keys are the originals some flavor yields, and each is
    there once: each distinct original is substituted once, not once for
    each flavor. *)
Theorem merged_diff_last_wins `{ColorSpace} `{Decoder} `{Dataset} `{Pathlib}
    `{Locale} (self : Replace.t) (w : world) (u : unit) :
  fst (Replace.__call__ self w) = Ok u ->
  exists d data palette,
    Replace.resolve self = Ok d /\
    files w !! Replace.src self = Some (File data) /\
    fst (Editor.palette (Editor.mk (Replace.conf self))
           (record (Exists d) w)) = Ok palette /\
    let flavors := dict_values palette in
    let merged := dict_of (concat (map _Flavor.dict flavors)) in
    let text := universal_newlines false data in
    fst (Replace._colors self (record (Exists d) w))
      = Ok (concat (map _Flavor.dict flavors)) /\
    files (snd (Replace.__call__ self w)) !! d
      = Some (File (substitute merged text)) /\
    substitute merged text
      = fold_left (fun text kv => replace (fst kv) (snd kv) text) merged text /\
    (forall before f after k v,
       flavors = before ++ f :: after ->
       dict_get k (_Flavor.dict f) = Some v ->
       (forall f', f' ∈ after -> dict_get k (_Flavor.dict f') = None) ->
       dict_get k merged = Some v) /\
    (forall k, k ∈ dict_keys merged <->
       exists f, f ∈ flavors /\ k ∈ dict_keys (_Flavor.dict f)) /\
    NoDup (dict_keys merged) /\
    (forall k, k ∈ dict_keys merged ->
       length (filter (fun kv : string * string => fst kv = k) merged) = 1).
Proof.
  intros Hok.
  destruct (replace_call_success self w u Hok)
    as (d & data & palette & ? & ? & ? & ? & ?).
  exists d, data, palette. split_and!; try done.
  destruct (merged_dict_facts (dict_values palette)) as (? & ? & ? & ?).
  simpl. split_and!; done.
Qed.

Lemma merged_diff_last_wins_witness :
  let self := Replace.mk "theme.css" (Some "out.css") "config.toml" in
  let w := mkWorld {[ "theme.css" := File "a: #808080;";
                      "config.toml" := File fixture.contrast_text ]} [] in
  let latte := _Flavor.mk "latte" [_Colors.mk "grey" "#808080" "#ffffff" true] in
  let mocha := _Flavor.mk "mocha" [_Colors.mk "grey" "#808080" "#000000" true] in
  fst (@Replace._colors fixture.space fixture.decoder fixture.greys self
         (record (Exists "out.css") w))
    = Ok [("#808080", "#ffffff"); ("#808080", "#000000")] /\
  dict_get "#808080"
    (dict_of (concat (map _Flavor.dict [latte; mocha]))) = Some "#000000" /\
  files (snd (@Replace.__call__ fixture.space fixture.decoder fixture.greys
                fixture.pathlib fixture.locale self w)) !! "out.css"
    = Some (File "a: #000000;").
Proof.
  intros self w latte mocha.
  destruct (@merged_diff_last_wins fixture.space fixture.decoder
              fixture.greys fixture.pathlib fixture.locale self w tt)
    as (d & data & palette & Hd & Hdata & Hpal & Hcolors & Hout & _ & Hlast & _).
  { vm_compute. reflexivity. }
  injection Hd as <-. injection Hdata as <-.
  assert (palette = [("latte", latte); ("mocha", mocha)]) as ->.
  { vm_compute in Hpal. injection Hpal as <-. reflexivity. }
  split_and!.
  - rewrite Hcolors. vm_compute. reflexivity.
  - apply (Hlast [latte] mocha [] "#808080" "#000000");
      [reflexivity|vm_compute; reflexivity|].
    intros f' Hf'. by apply elem_of_nil in Hf'.
  - rewrite Hout. vm_compute. reflexivity.
Defined.

(** X7. In a successful run, the originals are replaced in the order in
    which the flavors first yield them: the text written is the text read
    in which each original, taken in the order of its first appearance
    among the yielded pairs, is replaced by its value in the merged
    dictionary, whichever flavor gave this value. *)
Theorem substitution_order `{ColorSpace} `{Decoder} `{Dataset} `{Pathlib}
    `{Locale} (self : Replace.t) (w : world) (u : unit) :
  fst (Replace.__call__ self w) = Ok u ->
  exists d data palette,
    Replace.resolve self = Ok d /\
    files w !! Replace.src self = Some (File data) /\
    fst (Editor.palette (Editor.mk (Replace.conf self))
           (record (Exists d) w)) = Ok palette /\
    let items := concat (map _Flavor.dict (dict_values palette)) in
    let merged := dict_of items in
    dict_keys merged = rev (remove_dups (rev (map fst items))) /\
    files (snd (Replace.__call__ self w)) !! d
      = Some (File (fold_left
                      (fun text k => match dict_get k merged with
                                     | Some v => replace k v text
                                     | None => text
                                     end)
                      (rev (remove_dups (rev (map fst items))))
                      (universal_newlines false data))).
Proof.
  intros Hok.
  destruct (replace_call_success self w u Hok)
    as (d & data & palette & ? & ? & ? & _ & Hout).
  exists d, data, palette. split_and!; try done.
  simpl. split; [apply dict_of_keys_order|].
  rewrite Hout, <- dict_of_keys_order. do 2 f_equal.
  apply substitute_by_keys. intros k v Hin.
  by apply dict_of_elem.
Qed.

Lemma substitution_order_witness :
  let self := Replace.mk "theme.css" (Some "out.css") "config.toml" in
  let w := mkWorld {[ "theme.css" := File "a: #808080;";
                      "config.toml" := File fixture.contrast_text ]} [] in
  files (snd (@Replace.__call__ fixture.space fixture.decoder fixture.greys
                fixture.pathlib fixture.locale self w)) !! "out.css"
    = Some (File (fold_left
                    (fun text k =>
                       match dict_get k [("#808080", "#000000")] with
                       | Some v => replace k v text
                       | None => text
                       end) ["#808080"] "a: #808080;")).
Proof.
  intros self w.
  destruct (@substitution_order fixture.space fixture.decoder fixture.greys
              fixture.pathlib fixture.locale self w tt)
    as (d & data & palette & Hd & Hdata & Hpal & _ & Hout).
  { vm_compute. reflexivity. }
  injection Hd as <-. injection Hdata as <-.
  rewrite Hout. vm_compute in Hpal. injection Hpal as <-.
  vm_compute. reflexivity.
Defined.

(** X18. When a run succeeds and no colour of any flavor of the palette is
    changed, the destination holds the text of the source as it is read in
    text mode; for a source without carriage return this is the content of
    the source. *)
Theorem unchanged_palette_copies `{ColorSpace} `{Decoder} `{Dataset}
    `{Pathlib} `{Locale} (self : Replace.t) (w : world) (u : unit) :
  fst (Replace.__call__ self w) = Ok u ->
  exists d data palette,
    Replace.resolve self = Ok d /\
    files w !! Replace.src self = Some (File data) /\
    fst (Editor.palette (Editor.mk (Replace.conf self))
           (record (Exists d) w)) = Ok palette /\
    (Forall (fun f => Forall (fun c => _Colors.changed c = false)
                        (_Flavor.colors f)) (dict_values palette) ->
     files (snd (Replace.__call__ self w)) !! d
       = Some (File (universal_newlines false data)) /\
     (~ occurs (String CR "") data ->
      files (snd (Replace.__call__ self w)) !! d = Some (File data))).
Proof.
  intros Hok.
  destruct (replace_call_success self w u Hok)
    as (d & data & palette & ? & ? & ? & _ & Hout).
  exists d, data, palette. split_and!; try done.
  intros Hall. rewrite Hout, (unchanged_palette_merged palette Hall).
  split; [done|]. intros Hno. simpl. by rewrite universal_newlines_no_cr.
Qed.

Lemma unchanged_palette_copies_witness :
  let self := Replace.mk "theme.css" (Some "out.css") "config.toml" in
  let w := mkWorld {[ "theme.css" := File "base: #1e1e2e;";
                      "config.toml" := File fixture.conf_text ]} [] in
  files (snd (@Replace.__call__ fixture.space fixture.decoder
                {| PALETTE := [models.Flavor.mk "Mocha" "mocha" true
                                 [models.Color.mk "Base" "base" false
                                    "#1e1e2e"]] |}
                fixture.pathlib fixture.locale self w)) !! "out.css"
    = Some (File "base: #1e1e2e;").
Proof.
  intros self w.
  destruct (@unchanged_palette_copies fixture.space fixture.decoder
              {| PALETTE := [models.Flavor.mk "Mocha" "mocha" true
                               [models.Color.mk "Base" "base" false
                                  "#1e1e2e"]] |}
              fixture.pathlib fixture.locale self w tt)
    as (d & data & palette & Hd & Hdata & Hpal & Hcopy).
  { vm_compute. reflexivity. }
  injection Hd as <-. injection Hdata as <-.
  destruct Hcopy as [_ Hcopy].
  { vm_compute in Hpal. injection Hpal as <-. repeat constructor. }
  apply Hcopy. refute_occurs.
Defined.
